(** * MeshCore config flow: a shallow embedding of
      [custom_components/meshcore/config_flow.py]

    The development follows the Python module top to bottom:
    - [Py]: the fragment of Python values and [str] methods the module uses;
    - [Validate]: [validate_common], with the awaited calls of the device
      API answered by an explicit environment;
    - [Options]: [OptionsFlowHandler], the add-repeater and remove-repeater
      steps over the handler's subscription list;
    - [Spec]: the notions of the specification the theorems are stated
      with, and [Samples]: a contact, sessions and inputs to run the model on.
    Theorems come last, grouped by the step they are about. *)

From Stdlib Require Import ZArith Lia Ascii.
From stdpp Require Import base strings list gmap pretty.

Local Open Scope string_scope.
Local Open Scope Z_scope.

(* ===================================================================== *)
(** ** Python values and string methods *)
(* ===================================================================== *)

Module Py.

(** Values stored in the dictionaries the flow handles. *)
Inductive pyval :=
| PNone
| PBool (b : bool)
| PInt (z : Z)
| PStr (s : string).

#[global] Instance pyval_eq_dec : EqDecision pyval.
Proof. solve_decision. Defined.

#[global] Instance pyval_inhabited : Inhabited pyval := populate PNone.

Abbreviation pydict := (gmap string pyval).

(** [bool(v)] *)
Definition truthy (v : pyval) : bool :=
  match v with
  | PNone => false
  | PBool b => b
  | PInt z => negb (z =? 0)
  | PStr s => negb (String.eqb s "")
  end.

(** [a == b]: [bool] is a subclass of [int], strings only equal strings. *)
Definition as_int (v : pyval) : option Z :=
  match v with
  | PBool b => Some (if b then 1 else 0)
  | PInt z => Some z
  | _ => None
  end.

Definition py_eq (a b : pyval) : bool :=
  match a, b with
  | PNone, PNone => true
  | PStr s, PStr t => String.eqb s t
  | _, _ => match as_int a, as_int b with
            | Some x, Some y => x =? y
            | _, _ => false
            end
  end.

(** [x in l] for a list [l] *)
Definition py_in (x : pyval) (l : list pyval) : bool := existsb (py_eq x) l.

(** [str(v)], as an f-string formats a value *)
Definition py_str (v : pyval) : string :=
  match v with
  | PNone => "None"
  | PBool true => "True"
  | PBool false => "False"
  | PInt z => pretty z
  | PStr s => s
  end.

(** [d.get(k)] and [d.get(k, dflt)] *)
Definition get (d : pydict) (k : string) : pyval := default PNone (d !! k).
Definition get_or (d : pydict) (k : string) (dflt : pyval) : pyval :=
  default dflt (d !! k).

(** [s.rfind(c)] for a one-character needle: the highest index of [c] in
    [s], or [-1]. *)
Fixpoint rfind_from (c : ascii) (s : string) (i last : Z) : Z :=
  match s with
  | EmptyString => last
  | String a s' => rfind_from c s' (i + 1) (if Ascii.eqb a c then i else last)
  end.

Definition rfind (s : string) (c : ascii) : Z := rfind_from c s 0 (-1).

(** Slice bounds: a negative index counts from the end, and both ends are
    clamped to the string. *)
Definition clamp (len i : Z) : Z :=
  if i <? 0 then Z.max 0 (len + i) else Z.min i len.

(** [s[lo:hi]] *)
Definition slice (s : string) (lo hi : Z) : string :=
  let n := Z.of_nat (String.length s) in
  let lo' := clamp n lo in
  let hi' := clamp n hi in
  String.substring (Z.to_nat lo') (Z.to_nat (hi' - lo')) s.

(** [s[:hi]] *)
Definition slice_to (s : string) (hi : Z) : string := slice s 0 hi.

(** [s.startswith(p)] *)
Definition startswith (s p : string) : bool := String.prefix p s.

(** [c.isspace()] on the code points a one-byte character can hold. *)
Definition isspace (c : ascii) : bool :=
  let n := N_of_ascii c in
  ((9 <=? n) && (n <=? 13) || (28 <=? n) && (n <=? 32)
   || (n =? 133) || (n =? 160))%N.

Fixpoint lstrip (s : string) : string :=
  match s with
  | String a s' => if isspace a then lstrip s' else s
  | EmptyString => EmptyString
  end.

(** [s.strip()] *)
Definition strip (s : string) : string :=
  String.rev (lstrip (String.rev (lstrip s))).

(** [sep.join(l)] *)
Fixpoint join (sep : string) (l : list string) : string :=
  match l with
  | [] => ""
  | [x] => x
  | x :: l' => x +:+ sep +:+ join sep l'
  end.

(** Exceptions the module raises or lets through, with their message. *)
Inductive exn :=
| AttributeError (msg : string)
| TypeError (msg : string)
| TimeoutError
| CannotConnect (msg : string)
| OtherError (msg : string).

(** [type(v).__name__] *)
Definition type_name (v : pyval) : string :=
  match v with
  | PNone => "NoneType"
  | PBool _ => "bool"
  | PInt _ => "int"
  | PStr _ => "str"
  end.

(** What [v.attr] raises when [v] has no such method. *)
Definition no_attribute (v : pyval) (attr : string) : exn :=
  AttributeError
    ("'" +:+ type_name v +:+ "' object has no attribute '" +:+ attr +:+ "'").

(** What [v[a:b]] raises when [v] is not a sequence. *)
Definition not_subscriptable (v : pyval) : exn :=
  TypeError ("'" +:+ type_name v +:+ "' object is not subscriptable").

(** [str(ex)] *)
Definition exn_str (e : exn) : string :=
  match e with
  | AttributeError m | TypeError m | CannotConnect m | OtherError m => m
  | TimeoutError => ""
  end.

(** The outcome of running a piece of the module: a value, a raised
    exception, or a coroutine that never completes. *)
Inductive result (A : Type) :=
| Ok (a : A)
| Raise (e : exn)
| Hang.
Arguments Ok {A} a.
Arguments Raise {A} e.
Arguments Hang {A}.

(** Code that reads and updates a state [S] and may raise: the state is
    threaded through, and an exception or a hanging await ends the run
    with the state reached so far. *)
Definition M (S A : Type) : Type := S -> result A * S.

#[global] Instance M_ret {S} : MRet (M S) := fun A a s => (Ok a, s).
#[global] Instance M_bind {S} : MBind (M S) := fun A B f m s =>
  match m s with
  | (Ok a, s') => f a s'
  | (Raise e, s') => (Raise e, s')
  | (Hang, s') => (Hang, s')
  end.

Definition raise {S A} (e : exn) : M S A := fun s => (Raise e, s).
Definition lift {S A} (r : result A) : M S A := fun s => (r, s).
Definition gets {S A} (f : S -> A) : M S A := fun s => (Ok (f s), s).
Definition modify {S} (f : S -> S) : M S unit := fun s => (Ok tt, f s).

(** [try: m  except Exception as ex: h ex] *)
Definition try_except {S A} (m : M S A) (h : exn -> M S A) : M S A := fun s =>
  match m s with
  | (Raise e, s') => h e s'
  | r => r
  end.

End Py.
Import Py.

(* ===================================================================== *)
(** ** What the module imports from the rest of the integration *)
(* ===================================================================== *)

(** The constants of [.const] the flow reads. Their values are not part of
    this module, so every function below takes them as a parameter. *)
Record Consts := {
  CONF_REPEATER_NAME : string;
  CONF_REPEATER_PASSWORD : string;
  CONF_REPEATER_UPDATE_INTERVAL : string;
  DEFAULT_REPEATER_UPDATE_INTERVAL : pyval;
  NodeType_REPEATER : pyval;
  NodeType_ROOM_SERVER : pyval;
  (** in the unit in which the durations of awaited calls are counted *)
  CONNECTION_TIMEOUT : N
}.

(** [meshcore.events.EventType], the members the flow names and the rest. *)
Inductive EventType :=
| ERROR
| SELF_INFO
| LOGIN_SUCCESS
| LOGIN_FAILED
| CONTACT_MSG_RECV
| OTHER_EVENT (tag : string).

#[global] Instance EventType_eq_dec : EqDecision EventType.
Proof. solve_decision. Defined.

Record Event := { type : EventType; payload : pydict }.

(** [ev.type == t] *)
Definition is_type (ev : Event) (t : EventType) : bool := bool_decide (type ev = t).

(* ===================================================================== *)
(** ** [validate_common] *)
(* ===================================================================== *)

Module Validate.

(** An awaited call of the device API: it completes after some time with
    a value or an exception, or it never completes. *)
Inductive awaited (A : Type) :=
| Resolves (after : N) (v : A)
| Throws (after : N) (e : exn)
| Never.
Arguments Resolves {A} after v.
Arguments Throws {A} after e.
Arguments Never {A}.

(** [await asyncio.wait_for(a, timeout=t)] *)
Definition wait_for {A} (a : awaited A) (timeout : N) : result A :=
  match a with
  | Resolves t v => if (t <? timeout)%N then Ok v else Raise TimeoutError
  | Throws t e => if (t <? timeout)%N then Raise e else Raise TimeoutError
  | Never => Raise TimeoutError
  end.

(** [await a] *)
Definition await {A} (a : awaited A) : result A :=
  match a with
  | Resolves _ v => Ok v
  | Throws _ e => Raise e
  | Never => Hang
  end.

(** How the node and the API object answer the calls of one validation.
    [appstart_reply] is what the node itself does with the identity
    request, [Never] for a node that stays silent; [identity_timeout] is
    the bound of the session's wait for that response, which the spec
    requires and does not quantify. *)
Record Node := {
  connect_reply : awaited pyval;
  mesh_core_set : bool;
  appstart_reply : awaited Event;
  identity_timeout : N;
  disconnect_reply : awaited unit
}.

Inductive SessionState := Disconnected | Connecting | Connected | Ready.

Inductive api_call :=
| ApiConnect (timeout : N)
| SendAppstart
| ApiDisconnect.

(** The [MeshCoreAPI] object: the state of its session and the calls made
    on it, oldest first. *)
Record MeshCoreAPI := {
  session : SessionState;
  calls : list api_call
}.

Definition new_api : MeshCoreAPI := {| session := Disconnected; calls := [] |}.

Definition holds_transport (api : MeshCoreAPI) : bool :=
  match session api with
  | Disconnected => false
  | _ => true
  end.

Definition called (c : api_call) : M MeshCoreAPI unit :=
  modify (fun api => {| session := session api; calls := calls api ++ [c] |}).

Definition enter (st : SessionState) : M MeshCoreAPI unit :=
  modify (fun api => {| session := st; calls := calls api |}).

(** Modelled from the spec: [MeshCoreAPI.connect] (meshcore_api.py is not
    among the sources). A transport-level connect that succeeds leaves the
    session in [Connecting] with the transport open; one that fails or is
    cut short by the timeout leaves it [Disconnected]. *)
Definition api_connect (node : Node) (timeout : N) : M MeshCoreAPI pyval :=
  called (ApiConnect timeout) ;;
  match wait_for (connect_reply node) timeout with
  | Ok v => enter (if truthy v then Connecting else Disconnected) ;; mret v
  | r => enter Disconnected ;; lift r
  end.

(** Modelled from the spec: what a command returns when its wait ran out
    (the meshcore library is not among the sources). The handshake fails
    on "timeout or error-kind response" alike (4.4), and the caller reads
    the [type] of what it is given: the timeout comes back as a response of
    kind [ERROR]. *)
Definition no_event_received : Event :=
  {| type := ERROR; payload := {[ "reason" := PStr "no_event_received" ]} |}.

(** Modelled from the spec: the correlated wait [await(P, T)] (4.3, and the
    first testable property): a matching event that arrives strictly
    before [T] elapses is returned, and otherwise the wait ends at [T],
    also when the transport never produces another byte. A failure of the
    send itself within the bound is raised. *)
Definition await_within (a : awaited Event) (timeout : N) : result Event :=
  match a with
  | Resolves t ev => Ok (if (t <? timeout)%N then ev else no_event_received)
  | Throws t e => if (t <? timeout)%N then Raise e else Ok no_event_received
  | Never => Ok no_event_received
  end.

(** Modelled from the spec: [commands.send_appstart]. It issues the
    identity request and awaits the node's identity response within a
    bounded timeout; the handshake moves a [Connecting] session to
    [Connected] when the node answers with its identity. *)
Definition send_appstart (node : Node) : M MeshCoreAPI Event :=
  called SendAppstart ;;
  node_info ← lift (await_within (appstart_reply node) (identity_timeout node));
  (if is_type node_info ERROR then mret tt else enter Connected) ;;
  mret node_info.

(** Modelled from the spec: [MeshCoreAPI.disconnect] releases the
    transport and returns the session to [Disconnected]. *)
Definition api_disconnect (node : Node) : M MeshCoreAPI unit :=
  called ApiDisconnect ;;
  lift (await (disconnect_reply node)) ;;
  enter Disconnected.

(** [public_key[:10]], evaluated for the log line. *)
Definition log_prefix (public_key : pyval) : result unit :=
  match public_key with
  | PStr _ => Ok tt
  | v => Raise (not_subscriptable v)
  end.

(** The body of the [try] (lines 79-106). *)
Definition validate_body (c : Consts) (node : Node) : M MeshCoreAPI pydict :=
  connect_success ← api_connect node (CONNECTION_TIMEOUT c);
  (if negb (truthy connect_success) || negb (mesh_core_set node)
   then raise (CannotConnect "Device connection failed")
   else mret tt) ;;
  node_info ← send_appstart node;
  (if is_type node_info ERROR
   then raise (CannotConnect "Failed to get node info")
   else mret tt) ;;
  api_disconnect node ;;
  let device_name := get_or (payload node_info) "name" (PStr "Unknown") in
  let public_key := get_or (payload node_info) "public_key" (PStr "") in
  lift (log_prefix public_key) ;;
  mret ({[ "title" := PStr ("MeshCore Node " +:+ py_str device_name);
           "name" := device_name;
           "pubkey" := public_key ]} : pydict).

(** [validate_common(api)] (lines 76-111): the [try] body under its two
    [except] clauses, [asyncio.TimeoutError] first. *)
Definition validate_common (c : Consts) (node : Node) : M MeshCoreAPI pydict :=
  try_except (validate_body c node) (fun ex =>
    match ex with
    | TimeoutError => raise (CannotConnect "Connection timed out")
    | _ => raise (CannotConnect ("Failed to connect: " +:+ exn_str ex))
    end).

End Validate.

(* ===================================================================== *)
(** ** [OptionsFlowHandler] *)
(* ===================================================================== *)

Module Options.

(** An element of [coordinator._contacts]. *)
Inductive contact_entry :=
| NotADict
| ContactDict (contact : pydict).

(** The [meshcore] session of the coordinator: the answers of the calls
    the flow makes on it. Each field gives what a call returns; a call of
    the library that raises or does not return ends the step at that call
    and is not modelled, and no statement below says where a step may raise
    or that it returns on that account. *)
Record MeshCore := {
  get_contact_by_key_prefix : string -> option pydict;
  send_login : pydict -> pyval -> Event;
  wait_for_event : EventType -> option pydict -> Z -> option Event;
  send_cmd : pydict -> string -> Event
}.

Record Coordinator := {
  _contacts : option (list contact_entry);
  mesh_core : MeshCore
}.

(** A running Home Assistant instance, as far as the flow looks into it:
    the coordinator that [hass.data[DOMAIN]] holds for this config entry,
    if any. *)
Record HomeAssistant := { entry_coordinator : option Coordinator }.

(** [self.hass]: [None] from [__init__] on, until the framework attaches
    the flow to the running instance. *)
Definition Hass : Type := option HomeAssistant.

(** The coordinator registered for this config entry, if [hass] is set and
    holds one. *)
Definition coordinator (hass : Hass) : option Coordinator :=
  match hass with
  | Some ha => entry_coordinator ha
  | None => None
  end.

(** Calls that leave the handler, in the order they are made. *)
Inductive call :=
| GetContactByKeyPrefix (prefix : string)
| SendLogin (contact : pydict) (password : pyval)
| WaitForEvent (t : EventType) (filter : option pydict) (timeout : Z)
| SendCmd (contact : pydict) (cmd : string)
| AsyncUpdateEntry (subscriptions : list pydict).

Definition is_login (c : call) : bool :=
  match c with
  | SendLogin _ _ => true
  | _ => false
  end.

(** The handler: its subscription list and the calls it has made so far,
    oldest first. The config entry itself belongs to the framework; what the
    handler does to it is the [AsyncUpdateEntry] call. *)
Record OptionsFlowHandler := {
  repeater_subscriptions : list pydict;
  sent : list call
}.

(** [OptionsFlowHandler(config_entry)], for an entry that stores the
    subscriptions [entry]. *)
Definition new_handler (entry : list pydict) : OptionsFlowHandler :=
  {| repeater_subscriptions := entry; sent := [] |}.

Definition called (c : call) : M OptionsFlowHandler unit :=
  modify (fun h => {| repeater_subscriptions := repeater_subscriptions h;
                      sent := sent h ++ [c] |}).

Definition set_subscriptions (l : list pydict) : M OptionsFlowHandler unit :=
  modify (fun h => {| repeater_subscriptions := l; sent := sent h |}).

(** [new_data = dict(self.config_entry.data);
     new_data[CONF_REPEATER_SUBSCRIPTIONS] = self.repeater_subscriptions;
     self.hass.config_entries.async_update_entry(self.config_entry, data=new_data)]:
    on a flow whose [hass] is still [None] the attribute access raises and
    no call is made. *)
Definition async_update_entry (hass : Hass) : M OptionsFlowHandler unit :=
  l ← gets repeater_subscriptions;
  match hass with
  | Some _ => called (AsyncUpdateEntry l)
  | None => raise (no_attribute PNone "config_entries")
  end.

(** The forms and results a step returns. *)
Inductive schema :=
| NoRepeatersSchema
| AddRepeaterSchema (choices : gset string) (default_password default_interval : pyval)
| InitSchema (repeater_to_remove : option (gmap string string)).

Inductive FlowResult :=
| ShowForm (step_id : string) (data_schema : schema)
           (errors : gmap string string)
           (description_placeholders : gmap string string)
| CreateEntry (title : string) (data : pydict).

(** [f"{name} ({pubkey_prefix})"] *)
Definition display_name (name pubkey_prefix : pyval) : string :=
  py_str name +:+ " (" +:+ py_str pubkey_prefix +:+ ")".

(** *** [async_step_init] without input: the form (lines 340-386) *)

(** The dropdown of removable repeaters. *)
Fixpoint repeater_entries (subs : list pydict) (acc : gmap string string)
  : gmap string string :=
  match subs with
  | [] => acc
  | r :: rest =>
      let name := get_or r "name" (PStr "") in
      let pubkey_prefix := get_or r "pubkey_prefix" (PStr "") in
      if truthy name && truthy pubkey_prefix
      then repeater_entries rest
             (<[display_name name pubkey_prefix := display_name name pubkey_prefix]> acc)
      else repeater_entries rest acc
  end.

(** The names listed in the description of the form. *)
Fixpoint repeater_display_names (subs : list pydict) : list string :=
  match subs with
  | [] => []
  | r :: rest =>
      let name := get r "name" in
      let pubkey_prefix := get_or r "pubkey_prefix" (PStr "") in
      match name with
      | PStr n =>
          if truthy name
          then (if truthy pubkey_prefix then display_name name pubkey_prefix else n)
               :: repeater_display_names rest
          else repeater_display_names rest
      | _ => repeater_display_names rest
      end
  end.

(** The form. Its schema always has the ["action"] key, so the dropdown is
    added whenever there are subscriptions with a name and a prefix. *)
Definition init_form (subs : list pydict) : FlowResult :=
  let entries := repeater_entries subs ∅ in
  let names := repeater_display_names subs in
  let repeater_str :=
    if bool_decide (names = []) then "None configured" else join ", " names in
  ShowForm "init"
    (InitSchema (match subs with
                 | [] => None
                 | _ => if bool_decide (entries = ∅) then None else Some entries
                 end))
    ∅
    {[ "repeaters" := repeater_str ]}.

(** *** [_get_repeater_contacts] (lines 389-425) *)

Section WithConsts.
Context (c : Consts).

(** The loop over [coordinator._contacts]. *)
Fixpoint repeater_contacts_loop (contacts : list contact_entry)
    (repeater_contacts : list (string * pyval))
  : result (list (string * pyval)) :=
  match contacts with
  | [] => Ok repeater_contacts
  | NotADict :: rest => repeater_contacts_loop rest repeater_contacts
  | ContactDict contact :: rest =>
      let contact_name := get_or contact "adv_name" (PStr "") in
      if negb (truthy contact_name)
      then repeater_contacts_loop rest repeater_contacts
      else
        let contact_type := get contact "type" in
        if py_eq contact_type (NodeType_REPEATER c)
           || py_eq contact_type (NodeType_ROOM_SERVER c)
        then
          let public_key := get_or contact "public_key" (PStr "") in
          if truthy public_key
          then match public_key with
               | PStr pk =>
                   let pubkey_prefix := slice_to pk 12 in
                   if truthy (PStr pubkey_prefix)
                   then repeater_contacts_loop rest
                          (repeater_contacts ++ [(pubkey_prefix, contact_name)])
                   else repeater_contacts_loop rest repeater_contacts
               | v => Raise (not_subscriptable v)
               end
          else repeater_contacts_loop rest repeater_contacts
        else repeater_contacts_loop rest repeater_contacts
  end.

(** The guards in front of the loop return [[]] when there is no
    coordinator or it has no [_contacts]. *)
Definition _get_repeater_contacts (hass : Hass) : result (list (string * pyval)) :=
  match coordinator hass with
  | None => Ok []
  | Some co =>
      match _contacts co with
      | None => Ok []
      | Some contacts => repeater_contacts_loop contacts []
      end
  end.

(** [repeater_dict[f"{name} ({prefix})"] = (prefix, name)] for each pair *)
Fixpoint build_repeater_dict (repeater_contacts : list (string * pyval))
    (repeater_dict : gmap string (string * pyval))
  : gmap string (string * pyval) :=
  match repeater_contacts with
  | [] => repeater_dict
  | (prefix, name) :: rest =>
      build_repeater_dict rest
        (<[display_name name (PStr prefix) := (prefix, name)]> repeater_dict)
  end.

(** *** [_show_add_repeater_form] (lines 427-448) *)

Definition _show_add_repeater_form (repeater_dict : gmap string (string * pyval))
    (errors : gmap string string) (user_input : option pydict) : FlowResult :=
  let '(default_password, default_interval) :=
    match user_input with
    | Some ui =>
        if bool_decide (ui = ∅)
        then (PStr "", DEFAULT_REPEATER_UPDATE_INTERVAL c)
        else (get_or ui (CONF_REPEATER_PASSWORD c) (PStr ""),
              get_or ui (CONF_REPEATER_UPDATE_INTERVAL c)
                (DEFAULT_REPEATER_UPDATE_INTERVAL c))
    | None => (PStr "", DEFAULT_REPEATER_UPDATE_INTERVAL c)
    end in
  ShowForm "add_repeater"
    (AddRepeaterSchema (dom repeater_dict) default_password default_interval)
    errors ∅.

(** *** The label parsing of the add step (lines 482-489) and of the
    remove step (lines 313-318) *)

(** [start = selected_str.rfind("(") + 1; end = selected_str.rfind(")");
     selected_str[start:end]] *)
Definition prefix_in_label (selected_str : string) : string :=
  let start := rfind selected_str "(" + 1 in
  let end_ := rfind selected_str ")" in
  slice selected_str start end_.

(** [selected_str[:start-1].strip()] *)
Definition name_in_label (selected_str : string) : string :=
  let start := rfind selected_str "(" + 1 in
  strip (slice_to selected_str (start - 1)).

(** *** [async_step_add_repeater] (lines 450-562) *)

Definition already_configured : string := "Repeater is already configured".
Definition contact_not_found : string := "Contact not found".
Definition login_failed : string :=
  "Failed to log in to repeater. Check password and try again.".
Definition login_timed_out : string := "Timed out waiting for login response".

(** [ver], from the awaited message *)
Definition version_of (msg : option Event) : pyval :=
  match msg with
  | None => PStr "Unknown"
  | Some m =>
      if is_type m ERROR then PStr "Unknown"
      else if is_type m CONTACT_MSG_RECV then get (payload m) "text"
      else PStr "Unknown"
  end.

(** The record appended to [self.repeater_subscriptions] (lines 547-554). *)
Definition new_subscription (repeater_name pubkey_prefix : string)
    (ver password update_interval : pyval) : pydict :=
  {[ "name" := PStr repeater_name;
     "pubkey_prefix" := PStr pubkey_prefix;
     "firmware_version" := ver;
     "password" := password;
     "update_interval" := update_interval;
     "enabled" := PBool true ]}.

(** [bool(contact)] for the value [get_contact_by_key_prefix] returns *)
Definition found (contact : option pydict) : option pydict :=
  match contact with
  | Some d => if bool_decide (d = ∅) then None else Some d
  | None => None
  end.

(** The step, one early [return] after the other. Every call on the
    session is logged before its answer is used. *)
Definition async_step_add_repeater (hass : Hass) (user_input : option pydict)
  : M OptionsFlowHandler FlowResult :=
  repeater_contacts ← lift (_get_repeater_contacts hass);
  match repeater_contacts with
  | [] => mret (ShowForm "add_repeater" NoRepeatersSchema ∅ ∅)
  | _ =>
  let repeater_dict := build_repeater_dict repeater_contacts ∅ in
  match user_input with
  | None => mret (_show_add_repeater_form repeater_dict ∅ None)
  | Some ui =>
  let fail (msg : string) : M OptionsFlowHandler FlowResult :=
    mret (_show_add_repeater_form repeater_dict {[ "base" := msg ]} user_input) in
  let selected_repeater := get ui (CONF_REPEATER_NAME c) in
  let password := get ui (CONF_REPEATER_PASSWORD c) in
  let update_interval :=
    get_or ui (CONF_REPEATER_UPDATE_INTERVAL c) (DEFAULT_REPEATER_UPDATE_INTERVAL c) in
  match selected_repeater with
  | PStr selected_str =>
  let pubkey_prefix := prefix_in_label selected_str in
  let repeater_name := name_in_label selected_str in
  subs ← gets repeater_subscriptions;
  let existing_prefixes := (fun r => get r "pubkey_prefix") <$> subs in
  if py_in (PStr pubkey_prefix) existing_prefixes then fail already_configured else
  match coordinator hass with
  | None => raise (no_attribute PNone (match hass with Some _ => "api" | None => "data" end))
  | Some co =>
  let meshcore := mesh_core co in
  called (GetContactByKeyPrefix pubkey_prefix) ;;
  match found (get_contact_by_key_prefix meshcore pubkey_prefix) with
  | None => fail contact_not_found
  | Some contact =>
  called (SendLogin contact password) ;;
  let send_result := send_login meshcore contact password in
  if is_type send_result ERROR then fail login_failed else
  called (WaitForEvent LOGIN_SUCCESS None 10) ;;
  match wait_for_event meshcore LOGIN_SUCCESS None 10 with
  | None => fail login_timed_out
  | Some result =>
  if is_type result ERROR then fail login_failed else
  called (SendCmd contact "ver") ;;
  let send_result := send_cmd meshcore contact "ver" in
  match get contact "public_key" with
  | PStr public_key =>
  let filter : pydict := {[ "pubkey_prefix" := PStr (slice_to public_key 12) ]} in
  called (WaitForEvent CONTACT_MSG_RECV (Some filter) 15) ;;
  let msg := wait_for_event meshcore CONTACT_MSG_RECV (Some filter) 15 in
  let ver := version_of msg in
  subs ← gets repeater_subscriptions;
  set_subscriptions
    (subs ++ [new_subscription repeater_name pubkey_prefix ver password update_interval]) ;;
  async_update_entry hass ;;
  subs ← gets repeater_subscriptions;
  mret (init_form subs)
  | v => raise (not_subscriptable v)
  end end end end
  | v => raise (no_attribute v "rfind")
  end end end.

(** *** [async_step_init] (lines 299-386) *)

(** The list comprehension of the remove branch: [r] is dropped when
    [r.get("pubkey_prefix") and r.get("pubkey_prefix").startswith(prefix)]. *)
Fixpoint without_repeater (pubkey_prefix_to_remove : string) (subs : list pydict)
  : result (list pydict) :=
  match subs with
  | [] => Ok []
  | r :: rest =>
      let p := get r "pubkey_prefix" in
      let hit : result bool :=
        if truthy p
        then match p with
             | PStr s => Ok (startswith s pubkey_prefix_to_remove)
             | v => Raise (no_attribute v "startswith")
             end
        else Ok false in
      match hit with
      | Ok b =>
          match without_repeater pubkey_prefix_to_remove rest with
          | Ok kept => Ok (if b then kept else r :: kept)
          | e => e
          end
      | Raise e => Raise e
      | Hang => Hang
      end
  end.

(** The step: dispatch on ["action"], or the form when there is no input. *)
Definition async_step_init (hass : Hass) (user_input : option pydict)
  : M OptionsFlowHandler FlowResult :=
  match user_input with
  | Some ui =>
      let action := get ui "action" in
      if py_eq action (PStr "add_repeater") then async_step_add_repeater hass None
      else if py_eq action (PStr "remove_repeater") && truthy (get ui "repeater_to_remove")
      then
        let repeater_to_remove := get ui "repeater_to_remove" in
        match repeater_to_remove with
        | PStr selected_str =>
            let pubkey_prefix_to_remove := prefix_in_label selected_str in
            subs ← gets repeater_subscriptions;
            kept ← lift (without_repeater pubkey_prefix_to_remove subs);
            set_subscriptions kept ;;
            async_update_entry hass ;;
            subs ← gets repeater_subscriptions;
            mret (init_form subs)
        | v => raise (no_attribute v "rfind")
        end
      else mret (CreateEntry "" ∅)
  | None =>
      subs ← gets repeater_subscriptions;
      mret (init_form subs)
  end.

End WithConsts.
End Options.

(* ===================================================================== *)
(** ** The vocabulary of the specification *)
(* ===================================================================== *)

Module Spec.
Import Options.

(** [bytes.hex()]: two lowercase hexadecimal digits per byte. *)
Definition hex_digit (n : N) : ascii :=
  ascii_of_N (if (n <? 10)%N then 48 + n else 87 + n)%N.

Definition hex_byte (b : Byte.byte) : string :=
  let n := Byte.to_N b in
  String (hex_digit (n / 16)%N) (String (hex_digit (n mod 16)%N) EmptyString).

Fixpoint hex_encode (key : list Byte.byte) : string :=
  match key with
  | [] => ""
  | b :: rest => hex_byte b +:+ hex_encode rest
  end.

(** The key prefix as the glossary words it: the first 12 bytes of the
    public key, hex-encoded. *)
Definition key_prefix_of_12_bytes (key : list Byte.byte) : string :=
  hex_encode (take 12 key).

(** The key prefix as the code computes it from the public-key string
    the contact carries: [public_key[:12]]. *)
Definition key_prefix (public_key : string) : string := slice_to public_key 12.

Fixpoint has_char (c : ascii) (s : string) : bool :=
  match s with
  | EmptyString => false
  | String a s' => Ascii.eqb a c || has_char c s'
  end.

(** The [pubkey_prefix] values of the records that carry the field. *)
Definition prefixes (subs : list pydict) : list pyval :=
  omap (fun r : pydict => r !! "pubkey_prefix") subs.

(** No two subscriptions have the same [pubkey_prefix]. *)
Definition unique_prefixes (subs : list pydict) : Prop := NoDup (prefixes subs).

(** The record has prefix [p]. *)
Definition has_prefix (p : string) (r : pydict) : Prop :=
  r !! "pubkey_prefix" = Some (PStr p).

#[global] Instance has_prefix_dec p r : Decision (has_prefix p r).
Proof. unfold has_prefix. apply _. Defined.

(** The record's [pubkey_prefix] is missing or empty. *)
Definition no_prefix (r : pydict) : Prop :=
  r !! "pubkey_prefix" = None \/ r !! "pubkey_prefix" = Some (PStr "").

#[global] Instance no_prefix_dec r : Decision (no_prefix r).
Proof. unfold no_prefix. apply _. Defined.

(** The record carries a non-empty string prefix that starts with [p]:
    the test of the remove step. *)
Definition prefix_extends (p : string) (r : pydict) : Prop :=
  exists q, r !! "pubkey_prefix" = Some (PStr q) /\ q <> "" /\ startswith q p = true.

#[global] Instance prefix_extends_dec p r : Decision (prefix_extends p r).
Proof.
  unfold prefix_extends.
  destruct (r !! "pubkey_prefix") as [[| b | z | q]|] eqn:E;
    try (right; intros (q' & Hq & _); congruence).
  destruct (decide (q = "")) as [-> | Hne].
  - right. intros (q' & Hq & Hne & _). congruence.
  - destruct (startswith q p) eqn:Hs.
    + left. by exists q.
    + right. intros (q' & Hq & _ & Hs'). congruence.
Defined.

(** Every [pubkey_prefix] present is a string or [None]. *)
Definition well_typed (subs : list pydict) : Prop :=
  Forall (fun r : pydict =>
            match r !! "pubkey_prefix" with
            | Some (PBool _) | Some (PInt _) => False
            | _ => True
            end) subs.

(** The prefixes of the list are key prefixes as the add step stores them
    for the contacts of its form, [public_key[:12]] of a key of twelve
    characters or more: every prefix that is there has twelve characters. *)
Definition key_prefixes (subs : list pydict) : Prop :=
  forall (r : pydict) q,
    r ∈ subs -> r !! "pubkey_prefix" = Some (PStr q) -> q <> "" ->
    String.length q = 12%nat.


(** The values the uniqueness check of the add step compares with:
    [[r.get("pubkey_prefix") for r in self.repeater_subscriptions]]. *)
Definition existing_prefixes (subs : list pydict) : list pyval :=
  (fun r : pydict => get r "pubkey_prefix") <$> subs.

(** Prefix [p] appears among the [pubkey_prefix] values of the list. *)
Definition subscribed (p : string) (subs : list pydict) : Prop :=
  exists r, r ∈ subs /\ has_prefix p r.

(** The add form offers repeaters to choose from, and the submitted input
    carries the label [label] as its selection. *)
Definition selects (c : Consts) (hass : Hass) (ui : pydict) (label : string) : Prop :=
  (exists rc, _get_repeater_contacts c hass = Ok rc /\ rc <> []) /\
  ui !! CONF_REPEATER_NAME c = Some (PStr label).

(** The answer to the wait for the version message of the contact whose
    public-key string is [public_key]. *)
Definition version_reply (m : MeshCore) (public_key : string) : option Event :=
  wait_for_event m CONTACT_MSG_RECV
    (Some {[ "pubkey_prefix" := PStr (key_prefix public_key) ]}) 15.

(** The answer to the wait for the login. *)
Definition login_reply (m : MeshCore) : option Event :=
  wait_for_event m LOGIN_SUCCESS None 10.

(** The error a form of the add step reports under ["base"]. *)
Definition add_form_error (res : FlowResult) : option string :=
  match res with
  | ShowForm "add_repeater" (AddRepeaterSchema _ _ _) errors _ => errors !! "base"
  | _ => None
  end.

(** The error with which a run of the add step ends, if it ends with the
    add form. *)
Definition step_error (run : result FlowResult * OptionsFlowHandler) : option string :=
  match run.1 with
  | Ok form => add_form_error form
  | _ => None
  end.

(** The calls of [l] that are login commands. *)
Definition logins (l : list call) : list call := filter (fun c => is_login c = true) l.

(** The transport-level connect completes within the timeout, with [v]. *)
Definition connects_in_time (c : Consts) (node : Validate.Node) (v : pyval) : Prop :=
  exists t, Validate.connect_reply node = Validate.Resolves t v /\
            (t < CONNECTION_TIMEOUT c)%N.

(** The transport-level connect is still running when the timeout ends. *)
Definition connect_overruns (c : Consts) (node : Validate.Node) : Prop :=
  Validate.connect_reply node = Validate.Never \/
  exists t, (CONNECTION_TIMEOUT c <= t)%N /\
            ((exists v, Validate.connect_reply node = Validate.Resolves t v) \/
             (exists e, Validate.connect_reply node = Validate.Throws t e)).

(** The node does not answer the identity request before the session's
    wait for it ends: it stays silent, or what it does comes too late. *)
Definition no_identity_response (node : Validate.Node) : Prop :=
  Validate.appstart_reply node = Validate.Never \/
  exists t, (Validate.identity_timeout node <= t)%N /\
            ((exists ev, Validate.appstart_reply node = Validate.Resolves t ev) \/
             (exists e, Validate.appstart_reply node = Validate.Throws t e)).

(** The identity request gets a response of kind [ERROR]. *)
Definition appstart_error (node : Validate.Node) : Prop :=
  exists t ev, Validate.appstart_reply node = Validate.Resolves t ev /\ type ev = ERROR.

End Spec.

(* ===================================================================== *)
(** ** Concrete data for the examples *)
(* ===================================================================== *)

Module Samples.
Import Options Validate.

(** Values for the constants of [.const]; the theorems hold for any. *)
Definition consts : Consts := {|
  CONF_REPEATER_NAME := "repeater_name";
  CONF_REPEATER_PASSWORD := "password";
  CONF_REPEATER_UPDATE_INTERVAL := "update_interval";
  DEFAULT_REPEATER_UPDATE_INTERVAL := PInt 900;
  NodeType_REPEATER := PInt 2;
  NodeType_ROOM_SERVER := PInt 3;
  CONNECTION_TIMEOUT := 10000
|}.

Definition event (t : EventType) (p : pydict) : Event := {| type := t; payload := p |}.

Definition sent_ok : Event := event (OTHER_EVENT "MSG_SENT") ∅.
Definition send_error : Event := event ERROR {[ "reason" := PStr "no_event_received" ]}.
Definition login_ok : Event := event LOGIN_SUCCESS ∅.
Definition version_msg : Event := event CONTACT_MSG_RECV {[ "text" := PStr "v1.4.2" ]}.

(** The 32-byte key [12 34 56 78 9a bc de f0], four times over. *)
Definition hilltop_key : list Byte.byte :=
  let w := [Byte.x12; Byte.x34; Byte.x56; Byte.x78;
            Byte.x9a; Byte.xbc; Byte.xde; Byte.xf0] in
  w ++ w ++ w ++ w.

Definition hilltop : pydict :=
  {[ "adv_name" := PStr "Hilltop";
     "type" := PInt 2;
     "public_key" := PStr (Spec.hex_encode hilltop_key) ]}.

Definition hilltop_label : string := "Hilltop (123456789abc)".

(** A session that resolves every prefix to [contact], accepts the login
    command, and answers the login wait, the version query and the
    version wait as given. *)
Definition mesh (contact : option pydict) (login_answer : option Event)
    (ver_sent : Event) (ver_answer : option Event) : MeshCore := {|
  get_contact_by_key_prefix := fun _ => contact;
  send_login := fun _ _ => sent_ok;
  wait_for_event := fun t _ _ =>
    match t with
    | LOGIN_SUCCESS => login_answer
    | _ => ver_answer
    end;
  send_cmd := fun _ _ => ver_sent
|}.

(** Hilltop answers everything. *)
Definition mesh_ok : MeshCore := mesh (Some hilltop) (Some login_ok) sent_ok (Some version_msg).
(** The login wait times out. *)
Definition mesh_login_timeout : MeshCore := mesh (Some hilltop) None sent_ok None.
(** The session knows no contact. *)
Definition mesh_no_contact : MeshCore := mesh None (Some login_ok) sent_ok (Some version_msg).

Definition coordinator_with (m : MeshCore) : Coordinator :=
  {| _contacts := Some [ContactDict hilltop]; mesh_core := m |}.

Definition hass_with (m : MeshCore) : Hass :=
  Some {| entry_coordinator := Some (coordinator_with m) |}.

Definition submit (label password : string) : pydict :=
  {[ "repeater_name" := PStr label; "password" := PStr password ]}.

Definition subscription (name prefix : string) : pydict :=
  new_subscription name prefix (PStr "Unknown") (PStr "secret") (PInt 900).

Definition remove_input (label : string) : pydict :=
  {[ "action" := PStr "remove_repeater"; "repeater_to_remove" := PStr label ]}.

(** A node whose transport connects at once and whose identity request is
    answered as given. *)
Definition node (appstart : awaited Event) : Node := {|
  connect_reply := Resolves 0 (PBool true);
  mesh_core_set := true;
  appstart_reply := appstart;
  identity_timeout := 15000;
  disconnect_reply := Resolves 0 tt
|}.

End Samples.

(* ===================================================================== *)
(** ** [MeshCoreConfigFlow] and the [validate_*_input] functions *)
(* ===================================================================== *)

Module ConfigFlow.
Import Validate.

(** The constants of [.const] the config flow reads. *)
Record FlowConsts := {
  CONF_NAME : string;
  CONF_PUBKEY : string;
  CONF_CONNECTION_TYPE : string;
  CONF_USB_PATH : string;
  CONF_BLE_ADDRESS : string;
  CONF_TCP_HOST : string;
  CONF_TCP_PORT : string;
  CONF_BAUDRATE : string;
  CONF_REPEATER_SUBSCRIPTIONS : string;
  CONNECTION_TYPE_USB : pyval;
  CONNECTION_TYPE_BLE : pyval;
  CONNECTION_TYPE_TCP : pyval;
  DEFAULT_BAUDRATE : pyval;
  DEFAULT_TCP_PORT : pyval
}.

(** [d[k]], which raises [KeyError(k)] for a missing key; [str] of that
    exception is the quoted key. *)
Definition key_error (k : string) : exn := OtherError ("'" +:+ k +:+ "'").

Definition subscript (d : pydict) (k : string) : result pyval :=
  match d !! k with
  | Some v => Ok v
  | None => Raise (key_error k)
  end.

(** The arguments a [MeshCoreAPI] is built with. *)
Inductive ApiParams :=
| UsbApi (usb_path baudrate : pyval)
| BleApi (ble_address : pyval)
| TcpApi (tcp_host tcp_port : pyval).

(** A device [BleakScanner.discover] reports. *)
Record BleDevice := { name : option string; address : string }.

(** What is outside the flow: how the node behind each API answers a
    validation, and what a Bluetooth scan finds. *)
Record World := {
  device : ApiParams -> Node;
  discover : result (list BleDevice)
}.

(** The flow object: its [connection_type], and, for the record, the API
    objects validated so far (with the calls made on each) and the number
    of scans started. *)
Record MeshCoreConfigFlow := {
  connection_type : option pyval;
  validated : list (ApiParams * MeshCoreAPI);
  scans : nat
}.

(** [MeshCoreConfigFlow()] *)
Definition new_flow : MeshCoreConfigFlow :=
  {| connection_type := None; validated := []; scans := 0 |}.

(** A value of the data of a config entry: a scalar, or the list of
    repeater subscriptions. *)
Inductive entry_val :=
| Scalar (v : pyval)
| Subscriptions (l : list pydict).

(** A dict display [{k1: v1, ..., kn: vn}]: the items are stored from left
    to right, so a repeated key keeps the last value. *)
Definition dict_display {V} (items : list (string * V)) : gmap string V :=
  foldl (fun d kv => <[kv.1 := kv.2]> d) ∅ items.

Inductive config_schema :=
| UserSchema
| UsbSchema (default_baudrate : pyval)
| BleChoiceSchema (devices : gmap string string)
| BleManualSchema
| TcpSchema (default_port : pyval).

Inductive ConfigResult :=
| ConfigForm (step_id : string) (data_schema : config_schema)
             (errors : gmap string string)
| ConfigEntry (title : pyval) (data : gmap string entry_val).

Section WithConsts.
Context (c : Consts) (fc : FlowConsts) (w : World).

(** [validate_common(api)] on a fresh API object built with [params]. *)
Definition validate_api (params : ApiParams) : M MeshCoreConfigFlow pydict :=
  fun flow =>
    let '(r, api) := validate_common c (device w params) new_api in
    (r, {| connection_type := connection_type flow;
           validated := validated flow ++ [(params, api)];
           scans := scans flow |}).

(** [validate_usb_input(hass, data)] (lines 113-121) *)
Definition validate_usb_input (data : pydict) : M MeshCoreConfigFlow pydict :=
  usb_path ← lift (subscript data (CONF_USB_PATH fc));
  baudrate ← lift (subscript data (CONF_BAUDRATE fc));
  validate_api (UsbApi usb_path baudrate).

(** [validate_ble_input(hass, data)] (lines 124-131) *)
Definition validate_ble_input (data : pydict) : M MeshCoreConfigFlow pydict :=
  ble_address ← lift (subscript data (CONF_BLE_ADDRESS fc));
  validate_api (BleApi ble_address).

(** [validate_tcp_input(hass, data)] (lines 134-142) *)
Definition validate_tcp_input (data : pydict) : M MeshCoreConfigFlow pydict :=
  tcp_host ← lift (subscript data (CONF_TCP_HOST fc));
  tcp_port ← lift (subscript data (CONF_TCP_PORT fc));
  validate_api (TcpApi tcp_host tcp_port).

(** The two [except] clauses of the steps: [CannotConnect] first, then
    [Exception]. *)
Definition step_errors (ex : exn) : gmap string string :=
  match ex with
  | CannotConnect _ => {[ "base" := "cannot_connect" ]}
  | _ => {[ "base" := "unknown" ]}
  end.

(** [try: ... return entry  except ...: errors["base"] = ...]: the entry
    the [try] returns, or the errors the form is shown with. *)
Definition attempt (body : M MeshCoreConfigFlow ConfigResult)
  : M MeshCoreConfigFlow (ConfigResult + gmap string string) :=
  try_except (entry ← body; mret (inl entry)) (fun ex => mret (inr (step_errors ex))).

(** The [try] body of [async_step_usb] (lines 185-193). *)
Definition usb_entry (user_input : pydict) : M MeshCoreConfigFlow ConfigResult :=
  info ← validate_usb_input user_input;
  title ← lift (subscript info "title");
  usb_path ← lift (subscript user_input (CONF_USB_PATH fc));
  baudrate ← lift (subscript user_input (CONF_BAUDRATE fc));
  mret (ConfigEntry title
          (dict_display
             [(CONF_CONNECTION_TYPE fc, Scalar (CONNECTION_TYPE_USB fc));
              (CONF_USB_PATH fc, Scalar usb_path);
              (CONF_BAUDRATE fc, Scalar baudrate);
              (CONF_NAME fc, Scalar (get info "name"));
              (CONF_PUBKEY fc, Scalar (get info "pubkey"));
              (CONF_REPEATER_SUBSCRIPTIONS fc, Subscriptions [])])).

(** [async_step_usb] (lines 179-209) *)
Definition async_step_usb (user_input : option pydict)
  : M MeshCoreConfigFlow ConfigResult :=
  outcome ← match user_input with
            | Some ui => attempt (usb_entry ui)
            | None => mret (inr ∅)
            end;
  match outcome with
  | inl entry => mret entry
  | inr errors => mret (ConfigForm "usb" (UsbSchema (DEFAULT_BAUDRATE fc)) errors)
  end.

(** The [try] body of [async_step_tcp] (lines 265-273). *)
Definition tcp_entry (user_input : pydict) : M MeshCoreConfigFlow ConfigResult :=
  info ← validate_tcp_input user_input;
  title ← lift (subscript info "title");
  tcp_host ← lift (subscript user_input (CONF_TCP_HOST fc));
  tcp_port ← lift (subscript user_input (CONF_TCP_PORT fc));
  mret (ConfigEntry title
          (dict_display
             [(CONF_CONNECTION_TYPE fc, Scalar (CONNECTION_TYPE_TCP fc));
              (CONF_TCP_HOST fc, Scalar tcp_host);
              (CONF_TCP_PORT fc, Scalar tcp_port);
              (CONF_NAME fc, Scalar (get info "name"));
              (CONF_PUBKEY fc, Scalar (get info "pubkey"));
              (CONF_REPEATER_SUBSCRIPTIONS fc, Subscriptions [])])).

(** [async_step_tcp] (lines 259-287) *)
Definition async_step_tcp (user_input : option pydict)
  : M MeshCoreConfigFlow ConfigResult :=
  outcome ← match user_input with
            | Some ui => attempt (tcp_entry ui)
            | None => mret (inr ∅)
            end;
  match outcome with
  | inl entry => mret entry
  | inr errors => mret (ConfigForm "tcp" (TcpSchema (DEFAULT_TCP_PORT fc)) errors)
  end.

(** The [try] body of [async_step_ble] (lines 217-224). *)
Definition ble_entry (user_input : pydict) : M MeshCoreConfigFlow ConfigResult :=
  info ← validate_ble_input user_input;
  title ← lift (subscript info "title");
  ble_address ← lift (subscript user_input (CONF_BLE_ADDRESS fc));
  mret (ConfigEntry title
          (dict_display
             [(CONF_CONNECTION_TYPE fc, Scalar (CONNECTION_TYPE_BLE fc));
              (CONF_BLE_ADDRESS fc, Scalar ble_address);
              (CONF_NAME fc, Scalar (get info "name"));
              (CONF_PUBKEY fc, Scalar (get info "pubkey"));
              (CONF_REPEATER_SUBSCRIPTIONS fc, Subscriptions [])])).

(** [needle in hay], for two strings *)
Fixpoint contains (needle hay : string) : bool :=
  String.prefix needle hay ||
  match hay with
  | EmptyString => false
  | String _ hay' => contains needle hay'
  end.

(** The loop over the discovered devices (lines 236-238). *)
Fixpoint meshcore_devices (discovered : list BleDevice) (devices : gmap string string)
  : gmap string string :=
  match discovered with
  | [] => devices
  | dev :: rest =>
      match name dev with
      | Some n =>
          if negb (String.eqb n "") && contains "MeshCore" n
          then meshcore_devices rest
                 (<[address dev := n +:+ " (" +:+ address dev +:+ ")"]> devices)
          else meshcore_devices rest devices
      | None => meshcore_devices rest devices
      end
  end.

(** The scan of [async_step_ble] (lines 232-240): an exception is logged
    and leaves no device. *)
Definition scan : M MeshCoreConfigFlow (gmap string string) :=
  modify (fun flow => {| connection_type := connection_type flow;
                         validated := validated flow;
                         scans := S (scans flow) |}) ;;
  try_except (discovered ← lift (discover w); mret (meshcore_devices discovered ∅))
             (fun _ => mret ∅).

(** [async_step_ble] (lines 211-257) *)
Definition async_step_ble (user_input : option pydict)
  : M MeshCoreConfigFlow ConfigResult :=
  outcome ← match user_input with
            | Some ui => attempt (ble_entry ui)
            | None => mret (inr ∅)
            end;
  match outcome with
  | inl entry => mret entry
  | inr errors =>
      devices ← scan;
      mret (ConfigForm "ble"
              (if bool_decide (devices = ∅) then BleManualSchema
               else BleChoiceSchema devices)
              errors)
  end.

(** [async_step_user] (lines 161-177) *)
Definition async_step_user (user_input : option pydict)
  : M MeshCoreConfigFlow ConfigResult :=
  match user_input with
  | Some ui =>
      ct ← lift (subscript ui (CONF_CONNECTION_TYPE fc));
      modify (fun flow => {| connection_type := Some ct;
                             validated := validated flow;
                             scans := scans flow |}) ;;
      if py_eq ct (CONNECTION_TYPE_USB fc) then async_step_usb None
      else if py_eq ct (CONNECTION_TYPE_BLE fc) then async_step_ble None
      else if py_eq ct (CONNECTION_TYPE_TCP fc) then async_step_tcp None
      else mret (ConfigForm "user" UserSchema ∅)
  | None => mret (ConfigForm "user" UserSchema ∅)
  end.

End WithConsts.
End ConfigFlow.

(** Concrete data for the config flow. *)
Module FlowSamples.
Import Validate ConfigFlow.

(** Values for the constants of [.const]; the theorems hold for any. *)
Definition flow_consts : FlowConsts := {|
  CONF_NAME := "name";
  CONF_PUBKEY := "pubkey";
  CONF_CONNECTION_TYPE := "connection_type";
  CONF_USB_PATH := "usb_path";
  CONF_BLE_ADDRESS := "ble_address";
  CONF_TCP_HOST := "tcp_host";
  CONF_TCP_PORT := "tcp_port";
  CONF_BAUDRATE := "baudrate";
  CONF_REPEATER_SUBSCRIPTIONS := "repeater_subscriptions";
  CONNECTION_TYPE_USB := PStr "usb";
  CONNECTION_TYPE_BLE := PStr "ble";
  CONNECTION_TYPE_TCP := PStr "tcp";
  DEFAULT_BAUDRATE := PInt 115200;
  DEFAULT_TCP_PORT := PInt 5000
|}.

Definition base_info : Event :=
  Samples.event SELF_INFO {[ "name" := PStr "Base"; "public_key" := PStr "a1b2" ]}.

(** A node that connects at once and answers the identity request. *)
Definition good_node : Node := Samples.node (Resolves 0 base_info).

(** A node whose transport never connects. *)
Definition dead_node : Node := {|
  connect_reply := Never;
  mesh_core_set := false;
  appstart_reply := Never;
  identity_timeout := 15000;
  disconnect_reply := Resolves 0 tt
|}.

(** A node whose connect returns [False]. *)
Definition refusing_node : Node := {|
  connect_reply := Resolves 0 (PBool false);
  mesh_core_set := false;
  appstart_reply := Never;
  identity_timeout := 15000;
  disconnect_reply := Resolves 0 tt
|}.

Definition found_devices : list BleDevice :=
  [ {| name := Some "MeshCore-1234"; address := "AA:BB" |};
    {| name := Some "Headset"; address := "CC:DD" |};
    {| name := None; address := "EE:FF" |} ].

(** Serial devices answer, everything else is dead; the scan finds
    [found_devices]. *)
Definition world : World := {|
  device := fun params =>
    match params with
    | UsbApi _ _ => good_node
    | _ => dead_node
    end;
  discover := Ok found_devices
|}.

Definition usb_input : pydict :=
  {[ "usb_path" := PStr "/dev/ttyUSB0"; "baudrate" := PInt 115200 ]}.

Definition tcp_input : pydict :=
  {[ "tcp_host" := PStr "10.0.0.7"; "tcp_port" := PInt 5000 ]}.

End FlowSamples.

(** Notions the statements about the rest of the module are made with. *)
Module Props.
Import Validate ConfigFlow.

(** The API object of a validation that returned: disconnected, after the
    three calls of the exchange. *)
Definition validated_api (c : Consts) : MeshCoreAPI :=
  {| session := Disconnected;
     calls := [ApiConnect (CONNECTION_TIMEOUT c); SendAppstart; ApiDisconnect] |}.

(** The step ends with its form [step_id], reporting [msg] under ["base"]. *)
Definition form_error (r : result ConfigResult) (step_id msg : string) : Prop :=
  exists schema, r = Ok (ConfigForm step_id schema {[ "base" := msg ]}).

(** The device advertises a name that contains "MeshCore". *)
Definition is_meshcore (dev : BleDevice) : Prop :=
  exists n, name dev = Some n /\ contains "MeshCore" n = true.

(** The form lets the user pick the address [addr], shown as [label]. *)
Definition offers (schema : config_schema) (addr label : string) : Prop :=
  match schema with
  | BleChoiceSchema devices => devices !! addr = Some label
  | _ => False
  end.

(** [contact] is a cached repeater or room server with the name [n] and
    the non-empty public-key string [pk]. *)
Definition repeater_contact (c : Consts) (contact : pydict) (n : pyval) (pk : string)
  : Prop :=
  contact !! "adv_name" = Some n /\ truthy n = true /\
  py_eq (get contact "type") (NodeType_REPEATER c)
  || py_eq (get contact "type") (NodeType_ROOM_SERVER c) = true /\
  contact !! "public_key" = Some (PStr pk) /\ pk <> "".

(** The init form lets the user pick [label] for removal. *)
Definition removable (form : Options.FlowResult) (label : string) : Prop :=
  match form with
  | Options.ShowForm "init" (Options.InitSchema (Some entries)) _ _ =>
      entries !! label = Some label
  | _ => False
  end.

(** The record has a name and a prefix to show: the label it is listed
    under. *)
Definition listed_as (r : pydict) (label : string) : Prop :=
  truthy (get_or r "name" (PStr "")) = true /\
  truthy (get_or r "pubkey_prefix" (PStr "")) = true /\
  label = Options.display_name (get_or r "name" (PStr ""))
            (get_or r "pubkey_prefix" (PStr "")).

(** The step id of the form a run ends with, if it ends with a form. *)
Definition shown_step (res : result Options.FlowResult) : option string :=
  match res with
  | Ok (Options.ShowForm step_id _ _ _) => Some step_id
  | _ => None
  end.

(** The calls of a complete run of the add step, in their order. *)
Definition add_calls (p : string) (contact : pydict) (password : pyval)
    (filter : pydict) (subs : list pydict) : list Options.call :=
  [Options.GetContactByKeyPrefix p;
   Options.SendLogin contact password;
   Options.WaitForEvent LOGIN_SUCCESS None 10;
   Options.SendCmd contact "ver";
   Options.WaitForEvent CONTACT_MSG_RECV (Some filter) 15;
   Options.AsyncUpdateEntry subs].

End Props.

(* ===================================================================== *)
(** ** The model on small inputs *)
(* ===================================================================== *)

Example slice_demo : slice "Hilltop (123456789abc)" 9 21 = "123456789abc".
Proof. reflexivity. Qed.

Example slice_negative_end : slice "abcdef" 0 (-1) = "abcde".
Proof. reflexivity. Qed.

Example rfind_demo : rfind "a(b)(c)" "(" = 4 /\ rfind "abc" "(" = -1.
Proof. split; reflexivity. Qed.

Example strip_demo : strip "  Hill top  " = "Hill top".
Proof. reflexivity. Qed.

Example label_parts :
  Options.prefix_in_label "Hill (top) (123456789abc)" = "123456789abc" /\
  Options.name_in_label "Hill (top) (123456789abc)" = "Hill (top)".
Proof. split; reflexivity. Qed.

(** A label without parentheses: [rfind] gives [-1] twice, so the "prefix"
    is the label without its last character. *)
Example label_without_parentheses : Options.prefix_in_label "Hilltop" = "Hillto".
Proof. reflexivity. Qed.

Example hilltop_public_key :
  Spec.hex_encode Samples.hilltop_key
  = "123456789abcdef0123456789abcdef0123456789abcdef0123456789abcdef0".
Proof. reflexivity. Qed.

(** The happy path of the specification: Hilltop, password "secret", the
    login succeeds and the version query is answered with "v1.4.2". *)
Example happy_path :
  (Options.async_step_add_repeater Samples.consts (Samples.hass_with Samples.mesh_ok)
     (Some (Samples.submit "Hilltop (123456789abc)" "secret"))
     (Options.new_handler [])).2
  = {| Options.repeater_subscriptions :=
         [Options.new_subscription "Hilltop" "123456789abc" (PStr "v1.4.2")
            (PStr "secret") (PInt 900)];
       Options.sent :=
         [Options.GetContactByKeyPrefix "123456789abc";
          Options.SendLogin Samples.hilltop (PStr "secret");
          Options.WaitForEvent LOGIN_SUCCESS None 10;
          Options.SendCmd Samples.hilltop "ver";
          Options.WaitForEvent CONTACT_MSG_RECV
            (Some {[ "pubkey_prefix" := PStr "123456789abc" ]}) 15;
          Options.AsyncUpdateEntry
            [Options.new_subscription "Hilltop" "123456789abc" (PStr "v1.4.2")
               (PStr "secret") (PInt 900)]] |}.
Proof. vm_compute. reflexivity. Qed.

(** The form of [async_step_init] lists the subscriptions and offers the
    named ones for removal. *)
Example init_form_demo :
  Options.init_form [Samples.subscription "Hilltop" "123456789abc";
                     {[ "name" := PStr "Spare" ]}]
  = Options.ShowForm "init"
      (Options.InitSchema
         (Some {[ "Hilltop (123456789abc)" := "Hilltop (123456789abc)" ]}))
      ∅
      {[ "repeaters" := "Hilltop (123456789abc), Spare" ]}.
Proof. vm_compute. reflexivity. Qed.

Example init_form_empty :
  Options.init_form []
  = Options.ShowForm "init" (Options.InitSchema None) ∅
      {[ "repeaters" := "None configured" ]}.
Proof. vm_compute. reflexivity. Qed.

(** Removing Hilltop leaves the other subscriptions, the one without a
    prefix included. *)
Example remove_demo :
  (Options.async_step_init Samples.consts (Samples.hass_with Samples.mesh_ok)
     (Some (Samples.remove_input "Hilltop (123456789abc)"))
     (Options.new_handler [Samples.subscription "Hilltop" "123456789abc";
                           {[ "name" := PStr "Spare" ]};
                           Samples.subscription "Valley" "abcdef012345"])).2
  = {| Options.repeater_subscriptions :=
         [{[ "name" := PStr "Spare" ]}; Samples.subscription "Valley" "abcdef012345"];
       Options.sent :=
         [Options.AsyncUpdateEntry
            [{[ "name" := PStr "Spare" ]};
             Samples.subscription "Valley" "abcdef012345"]] |}.
Proof. vm_compute. reflexivity. Qed.

(** A prefix that is not a string stops the comprehension. *)
Example remove_before_hass_is_set :
  Options.async_step_init Samples.consts None
    (Some (Samples.remove_input "Hilltop (123456789abc)"))
    (Options.new_handler [Samples.subscription "Hilltop" "123456789abc"])
  = (Raise (AttributeError "'NoneType' object has no attribute 'config_entries'"),
     {| Options.repeater_subscriptions := []; Options.sent := [] |}).
Proof. vm_compute. reflexivity. Qed.

Example remove_raises :
  (Options.async_step_init Samples.consts (Samples.hass_with Samples.mesh_ok)
     (Some (Samples.remove_input "Hilltop (123456789abc)"))
     (Options.new_handler [{[ "name" := PStr "Odd"; "pubkey_prefix" := PInt 7 ]}])).1
  = Raise (AttributeError "'int' object has no attribute 'startswith'").
Proof. vm_compute. reflexivity. Qed.

(** A validation that goes through: connect, identity, disconnect. *)
Example validation_succeeds :
  Validate.validate_common Samples.consts
    (Samples.node (Validate.Resolves 0
       (Samples.event SELF_INFO {[ "name" := PStr "Base"; "public_key" := PStr "a1b2" ]})))
    Validate.new_api
  = (Ok {[ "title" := PStr "MeshCore Node Base"; "name" := PStr "Base";
           "pubkey" := PStr "a1b2" ]},
     {| Validate.session := Validate.Disconnected;
        Validate.calls := [Validate.ApiConnect 10000; Validate.SendAppstart;
                           Validate.ApiDisconnect] |}).
Proof. vm_compute. reflexivity. Qed.

(* ===================================================================== *)
(** ** Facts about the string methods *)
(* ===================================================================== *)

Section StringFacts.
Import Spec.

Lemma length_app (a b : string) :
  String.length (a +:+ b) = (String.length a + String.length b)%nat.
Proof. induction a as [|x a IH]; simpl; [done | by rewrite IH]. Qed.

Lemma app_assoc_str (a b d : string) : (a +:+ b) +:+ d = a +:+ (b +:+ d).
Proof.
  induction a as [|x a IH]; [reflexivity|].
  change (String x ((a +:+ b) +:+ d) = String x (a +:+ (b +:+ d))).
  by rewrite IH.
Qed.

Lemma clamp_in_range (len i : Z) : 0 <= i <= len -> clamp len i = i.
Proof. intros H. unfold clamp. destruct (Z.ltb_spec i 0); lia. Qed.

Lemma substring_app_skip (a b : string) (m : nat) :
  String.substring (String.length a) m (a +:+ b) = String.substring 0 m b.
Proof. induction a as [|x a IH]; simpl; [done | exact IH]. Qed.

Lemma substring_app_take (p b : string) :
  String.substring 0 (String.length p) (p +:+ b) = p.
Proof.
  induction p as [|x p IH]; simpl.
  - by destruct b.
  - by rewrite IH.
Qed.

Lemma rfind_from_app c (a b : string) i last :
  rfind_from c (a +:+ b) i last
  = rfind_from c b (i + Z.of_nat (String.length a)) (rfind_from c a i last).
Proof.
  revert i last. induction a as [|x a IH]; intros i last; simpl.
  - f_equal. lia.
  - rewrite IH. f_equal. lia.
Qed.

Lemma rfind_from_absent c (s : string) i last :
  has_char c s = false -> rfind_from c s i last = last.
Proof.
  revert i last. induction s as [|x s IH]; intros i last H; simpl in *; [done|].
  apply orb_false_iff in H as [Hx Hs]. rewrite Hx. by apply IH.
Qed.

Lemma has_char_app c (a b : string) :
  has_char c (a +:+ b) = has_char c a || has_char c b.
Proof. induction a as [|x a IH]; simpl; [done|]. by rewrite IH, orb_assoc. Qed.

(** In [f"{name} ({prefix})"] the last ["("] is the one the format adds,
    as long as the prefix has none of its own. *)
Lemma rfind_open (n p : string) :
  has_char "(" p = false ->
  rfind (n +:+ " (" +:+ p +:+ ")") "(" = Z.of_nat (String.length n) + 1.
Proof.
  intros Hp. unfold rfind. rewrite rfind_from_app. simpl.
  rewrite rfind_from_absent; [lia|].
  rewrite !has_char_app, Hp. reflexivity.
Qed.

(** ... and the last [")"] is its last character. *)
Lemma rfind_close (n p : string) :
  rfind (n +:+ " (" +:+ p +:+ ")") ")" = Z.of_nat (String.length n) + 2 + Z.of_nat (String.length p).
Proof.
  unfold rfind. rewrite rfind_from_app. simpl.
  repeat rewrite rfind_from_app. simpl. lia.
Qed.

(** Parsing a label gives back the prefix it was built from. *)
Lemma prefix_in_label_display (name : pyval) (p : string) :
  has_char "(" p = false ->
  Options.prefix_in_label (Options.display_name name (PStr p)) = p.
Proof.
  intros Hp. unfold Options.prefix_in_label, Options.display_name. simpl py_str.
  rewrite rfind_open by done. rewrite rfind_close.
  set (n := py_str name).
  unfold slice.
  rewrite !clamp_in_range by (rewrite !length_app; simpl String.length; lia).
  replace (Z.to_nat (Z.of_nat (String.length n) + 1 + 1))
    with (String.length (n +:+ " (")) by (rewrite length_app; simpl; lia).
  replace (Z.to_nat _) with (String.length p) by lia.
  change (n +:+ " (" +:+ p +:+ ")") with (n +:+ (" (" +:+ (p +:+ ")"))).
  replace (n +:+ (" (" +:+ (p +:+ ")"))) with ((n +:+ " (") +:+ (p +:+ ")")).
  - rewrite substring_app_skip. apply substring_app_take.
  - apply app_assoc_str.
Qed.

End StringFacts.

(* ===================================================================== *)
(** ** The remove step *)
(* ===================================================================== *)

Section RemoveFacts.
Import Spec Options.

Lemma truthy_str (q : string) : truthy (PStr q) = true <-> q <> "".
Proof.
  simpl. destruct (String.eqb_spec q ""); split; intros; simplify_eq/=; done.
Qed.

Lemma get_lookup (r : pydict) (k : string) (v : pyval) :
  r !! k = Some v -> get r k = v.
Proof. unfold get. by intros ->. Qed.

(** What the comprehension keeps, whenever it runs to its end. *)
Lemma without_repeater_filter p subs kept :
  without_repeater p subs = Ok kept ->
  kept = filter (fun r => ~ prefix_extends p r) subs.
Proof.
  revert kept. induction subs as [|r rest IH]; intros kept H; simpl in H.
  - by simplify_eq.
  - unfold get in H.
    destruct (r !! "pubkey_prefix") as [[| b | z | q]|] eqn:E; simpl in H.
    + destruct (without_repeater p rest) as [k| |]; simplify_eq.
      rewrite filter_cons_True; [by rewrite (IH k)|].
      intros (q' & Hq & _). congruence.
    + destruct b; simpl in H; [done|].
      destruct (without_repeater p rest) as [k| |]; simplify_eq.
      rewrite filter_cons_True; [by rewrite (IH k)|].
      intros (q' & Hq & _). congruence.
    + destruct (z =? 0); simpl in H; [|done].
      destruct (without_repeater p rest) as [k| |]; simplify_eq.
      rewrite filter_cons_True; [by rewrite (IH k)|].
      intros (q' & Hq & _). congruence.
    + destruct (String.eqb_spec q "") as [-> | Hne]; simpl in H.
      * destruct (without_repeater p rest) as [k| |]; simplify_eq.
        rewrite filter_cons_True; [by rewrite (IH k)|].
        intros (q' & Hq & Hne & _). congruence.
      * destruct (without_repeater p rest) as [k| |]; simplify_eq.
        destruct (startswith q p) eqn:Hs.
        -- rewrite filter_cons_False; [by rewrite (IH k)|].
           intros Hn. apply Hn. by exists q.
        -- rewrite filter_cons_True; [by rewrite (IH k)|].
           intros (q' & Hq & _ & Hs'). congruence.
    + destruct (without_repeater p rest) as [k| |]; simplify_eq.
      rewrite filter_cons_True; [by rewrite (IH k)|].
      intros (q' & Hq & _). congruence.
Qed.

(** The comprehension never hangs, and it runs to its end on a list whose
    prefixes are strings. *)
Lemma without_repeater_no_hang p subs : without_repeater p subs <> Hang.
Proof.
  induction subs as [|r rest IH]; simpl; [done|].
  destruct (truthy (get r "pubkey_prefix")); [destruct (get r "pubkey_prefix")|];
    try done; by destruct (without_repeater p rest).
Qed.

Lemma without_repeater_total p subs :
  well_typed subs -> exists kept, without_repeater p subs = Ok kept.
Proof.
  induction 1 as [|r rest Hr _ [k IH]]; simpl; [by eexists|].
  rewrite IH. unfold get.
  destruct (r !! "pubkey_prefix") as [[| b | z | q]|]; simpl; try done; eauto.
  destruct (negb _); eauto.
Qed.

End RemoveFacts.

(* ===================================================================== *)
(** ** Running the steps *)
(* ===================================================================== *)

(** Unfold the state-and-exception plumbing of a step of the options flow. *)
Ltac run :=
  unfold Options.async_update_entry, Options.called, Options.set_subscriptions,
    mbind, M_bind, mret, M_ret, lift, gets, modify, raise; simpl.

Section StepFacts.
Import Spec Options.
Context (c : Consts).

Ltac split_match :=
  match goal with
  | |- context [match ?x with _ => _ end] => destruct x eqn:?
  end.

(** With no input the add step only shows a form. *)
Lemma add_without_input hass h :
  (async_step_add_repeater c hass None h).2 = h.
Proof.
  unfold async_step_add_repeater. run.
  destruct (_get_repeater_contacts c hass) as [[|x l]| |]; reflexivity.
Qed.

(** Whatever the add step is given, it leaves the subscription list as it
    was or appends one record whose prefix was not in the list. *)
Lemma add_subscriptions hass ui h :
  let h' := (async_step_add_repeater c hass ui h).2 in
  repeater_subscriptions h' = repeater_subscriptions h \/
  exists n p ver pw iv,
    py_in (PStr p) (existing_prefixes (repeater_subscriptions h)) = false /\
    repeater_subscriptions h'
    = (repeater_subscriptions h ++ [new_subscription n p ver pw iv])%list.
Proof.
  unfold async_step_add_repeater, existing_prefixes. destruct hass as [ha|]; run.
  - repeat (split_match; simpl; try (left; reflexivity)).
    right. eauto 10.
  - by left.
Qed.

End StepFacts.

(* ===================================================================== *)
(** ** The add step *)
(* ===================================================================== *)

Section AddFacts.
Import Spec Options.

#[local] Arguments prefix_in_label : simpl never.
#[local] Arguments name_in_label : simpl never.
#[local] Arguments build_repeater_dict : simpl never.
#[local] Arguments _show_add_repeater_form : simpl never.
#[local] Arguments init_form : simpl never.
#[local] Arguments new_subscription : simpl never.
#[local] Arguments py_in : simpl never.
#[local] Arguments slice_to : simpl never.

Lemma py_eq_str (p : string) (v : pyval) : py_eq (PStr p) v = true <-> v = PStr p.
Proof.
  destruct v as [| b | z | q]; simpl; try (split; [done | congruence]).
  destruct (String.eqb_spec p q); split; intros; simplify_eq; done.
Qed.

Lemma get_str (r : pydict) (k p : string) : get r k = PStr p <-> r !! k = Some (PStr p).
Proof. unfold get. destruct (r !! k); simpl; split; intros; simplify_eq; done. Qed.

(** The membership test of the add step finds exactly the subscribed
    prefixes. *)
Lemma py_in_subscribed (p : string) (subs : list pydict) :
  py_in (PStr p) (existing_prefixes subs) = true <-> subscribed p subs.
Proof.
  unfold py_in, existing_prefixes, subscribed, has_prefix.
  rewrite existsb_exists. split.
  - intros (v & Hin & Heq). apply py_eq_str in Heq as ->.
    apply list_elem_of_In, list_elem_of_fmap in Hin as (r & Hr & Hin).
    exists r. split; [done|]. by apply get_str.
  - intros (r & Hin & Hp). exists (PStr p). split.
    + apply list_elem_of_In, list_elem_of_fmap. exists r. split; [|done].
      symmetry. by apply get_str.
    + by apply py_eq_str.
Qed.

Lemma py_in_not_subscribed (p : string) (subs : list pydict) :
  py_in (PStr p) (existing_prefixes subs) = false <-> ~ subscribed p subs.
Proof.
  rewrite <- py_in_subscribed. destruct (py_in _ _); split; intros; done.
Qed.

Lemma add_form_error_show c d msg ui :
  add_form_error (_show_add_repeater_form c d {[ "base" := msg ]} ui) = Some msg.
Proof.
  unfold _show_add_repeater_form.
  destruct ui as [ui|]; [destruct (bool_decide (ui = ∅))|]; reflexivity.
Qed.

(** Enter the add step with a selection: the contacts are read, the form
    has entries, and the label is a string. *)
Ltac enter_add Hsel :=
  let rc := fresh "rc" in
  let Hrc := fresh "Hrc" in
  let Hne := fresh "Hne" in
  let Hlabel := fresh "Hlabel" in
  destruct Hsel as ((rc & Hrc & Hne) & Hlabel);
  unfold async_step_add_repeater; run; rewrite Hrc;
  destruct rc as [|? ?]; [done|]; simpl;
  unfold get at 1; rewrite Hlabel; simpl.

(** The rejection itself, shared by the statements about a subscribed
    prefix. *)
Lemma subscribed_prefix_rejected c hass ui label h :
  selects c hass ui label ->
  subscribed (prefix_in_label label) (repeater_subscriptions h) ->
  exists form,
    async_step_add_repeater c hass (Some ui) h = (Ok form, h) /\
    add_form_error form = Some already_configured.
Proof.
  intros Hsel Hsub. apply py_in_subscribed in Hsub.
  enter_add Hsel. unfold existing_prefixes in Hsub. rewrite Hsub.
  eexists. split; [reflexivity | apply add_form_error_show].
Qed.

(** C1. For every subscription list and every selected repeater whose
    extracted prefix already appears among the list's [pubkey_prefix]
    values, the add step returns the add form with the error "Repeater is
    already configured", and the handler is exactly as before: no call was
    made (so no login command was sent) and the subscription list has the
    same length and the same contents. *)
Theorem add_rejects_subscribed_prefix c hass ui label h :
  selects c hass ui label ->
  subscribed (prefix_in_label label) (repeater_subscriptions h) ->
  exists form h',
    async_step_add_repeater c hass (Some ui) h = (Ok form, h') /\
    add_form_error form = Some already_configured /\
    sent h' = sent h /\
    logins (sent h') = logins (sent h) /\
    repeater_subscriptions h' = repeater_subscriptions h /\
    length (repeater_subscriptions h') = length (repeater_subscriptions h).
Proof.
  intros Hsel Hsub.
  destruct (subscribed_prefix_rejected c hass ui label h Hsel Hsub)
    as (form & Hrun & Herr).
  by exists form, h.
Qed.

Lemma found_some (contact : pydict) :
  contact <> ∅ -> found (Some contact) = Some contact.
Proof. intros H. unfold found. by rewrite bool_decide_eq_false_2. Qed.

Lemma is_type_false (ev : Event) (t : EventType) : type ev <> t -> is_type ev t = false.
Proof. intros H. unfold is_type. by rewrite bool_decide_eq_false_2. Qed.

Lemma is_type_true (ev : Event) (t : EventType) : type ev = t -> is_type ev t = true.
Proof. intros H. unfold is_type. by rewrite bool_decide_eq_true_2. Qed.

Lemma logins_app (l l' : list call) : logins (l ++ l') = (logins l ++ logins l')%list.
Proof. apply filter_app. Qed.

(** C9, as the code has it. When the lookup by the extracted prefix finds
    no contact, the add step returns the add form with an error, sends no
    login command and leaves the subscription list unchanged. The error is
    "Contact not found" when the prefix is not subscribed yet; the
    uniqueness check comes first, so for a prefix that is already
    subscribed the error is "Repeater is already configured". *)
Theorem add_without_contact c hass co ui label h :
  selects c hass ui label ->
  coordinator hass = Some co ->
  get_contact_by_key_prefix (mesh_core co) (prefix_in_label label) = None ->
  exists form h',
    async_step_add_repeater c hass (Some ui) h = (Ok form, h') /\
    (~ subscribed (prefix_in_label label) (repeater_subscriptions h) ->
     add_form_error form = Some contact_not_found) /\
    (subscribed (prefix_in_label label) (repeater_subscriptions h) ->
     add_form_error form = Some already_configured) /\
    logins (sent h') = logins (sent h) /\
    repeater_subscriptions h' = repeater_subscriptions h.
Proof.
  intros Hsel Hco Hnone.
  destruct (py_in (PStr (prefix_in_label label))
              (existing_prefixes (repeater_subscriptions h))) eqn:Hin.
  - apply py_in_subscribed in Hin.
    destruct (subscribed_prefix_rejected c hass ui label h Hsel Hin)
      as (form & Hrun & Herr).
    exists form, h. repeat split; try done.
  - enter_add Hsel. unfold existing_prefixes in Hin. rewrite Hin, Hco. simpl.
    rewrite Hnone. simpl.
    eexists _, _. split; [reflexivity|]. simpl.
    apply py_in_not_subscribed in Hin.
    repeat split; try done.
    + intros _. apply add_form_error_show.
    + rewrite logins_app. simpl. by rewrite app_nil_r.
Qed.

(** C2. Once the login command has been sent and its send result is not
    an error, the step waits for [LOGIN_SUCCESS] with [timeout=10]; when
    that wait times out (returns nothing) or returns an [ERROR] event, the
    step ends with a login failure on the add form: the wait is the last
    call made, so the config entry is not updated, and the subscription
    list has not changed. *)
Theorem login_wait_failure c hass co ui label contact h :
  selects c hass ui label ->
  coordinator hass = Some co ->
  ~ subscribed (prefix_in_label label) (repeater_subscriptions h) ->
  get_contact_by_key_prefix (mesh_core co) (prefix_in_label label) = Some contact ->
  contact <> ∅ ->
  type (send_login (mesh_core co) contact (get ui (CONF_REPEATER_PASSWORD c))) <> ERROR ->
  (wait_for_event (mesh_core co) LOGIN_SUCCESS None 10 = None \/
   exists ev, wait_for_event (mesh_core co) LOGIN_SUCCESS None 10 = Some ev /\
              type ev = ERROR) ->
  exists form h',
    async_step_add_repeater c hass (Some ui) h = (Ok form, h') /\
    add_form_error form
    = Some (match wait_for_event (mesh_core co) LOGIN_SUCCESS None 10 with
            | None => login_timed_out
            | Some _ => login_failed
            end) /\
    sent h' = (sent h ++
               [GetContactByKeyPrefix (prefix_in_label label);
                SendLogin contact (get ui (CONF_REPEATER_PASSWORD c));
                WaitForEvent LOGIN_SUCCESS None 10])%list /\
    repeater_subscriptions h' = repeater_subscriptions h.
Proof.
  intros Hsel Hco Hnew Hcontact Hnonempty Hsent Hwait.
  apply py_in_not_subscribed in Hnew. unfold existing_prefixes in Hnew.
  enter_add Hsel. rewrite Hnew, Hco. simpl.
  rewrite Hcontact, (found_some _ Hnonempty). simpl.
  rewrite (is_type_false _ _ Hsent). simpl.
  destruct Hwait as [Hw | (ev & Hw & Hev)]; rewrite Hw; simpl.
  - eexists _, _. split; [reflexivity|]. simpl.
    split; [apply add_form_error_show|].
    by rewrite <- !app_assoc.
  - rewrite (is_type_true _ _ Hev). simpl.
    eexists _, _. split; [reflexivity|]. simpl.
    split; [apply add_form_error_show|].
    by rewrite <- !app_assoc.
Qed.

(** The whole run of a submission whose login succeeds. *)
Lemma add_after_login c hass co ui label contact pk ev h :
  selects c hass ui label ->
  coordinator hass = Some co ->
  ~ subscribed (prefix_in_label label) (repeater_subscriptions h) ->
  get_contact_by_key_prefix (mesh_core co) (prefix_in_label label) = Some contact ->
  contact !! "public_key" = Some (PStr pk) ->
  type (send_login (mesh_core co) contact (get ui (CONF_REPEATER_PASSWORD c))) <> ERROR ->
  login_reply (mesh_core co) = Some ev ->
  type ev <> ERROR ->
  let password := get ui (CONF_REPEATER_PASSWORD c) in
  let interval :=
    get_or ui (CONF_REPEATER_UPDATE_INTERVAL c) (DEFAULT_REPEATER_UPDATE_INTERVAL c) in
  let record :=
    new_subscription (name_in_label label) (prefix_in_label label)
      (version_of (version_reply (mesh_core co) pk)) password interval in
  let subs := (repeater_subscriptions h ++ [record])%list in
  async_step_add_repeater c hass (Some ui) h
  = (Ok (init_form subs),
     {| repeater_subscriptions := subs;
        sent := (sent h ++
                 [GetContactByKeyPrefix (prefix_in_label label);
                  SendLogin contact password;
                  WaitForEvent LOGIN_SUCCESS None 10;
                  SendCmd contact "ver";
                  WaitForEvent CONTACT_MSG_RECV
                    (Some {[ "pubkey_prefix" := PStr (key_prefix pk) ]}) 15;
                  AsyncUpdateEntry subs])%list |}).
Proof.
  intros Hsel Hco Hnew Hcontact Hpk Hsent Hlogin Hev. unfold login_reply in Hlogin.
  apply py_in_not_subscribed in Hnew. unfold existing_prefixes in Hnew.
  assert (contact <> ∅) as Hnonempty by (intros ->; by rewrite lookup_empty in Hpk).
  destruct hass as [ha|]; [simpl in Hco | done].
  enter_add Hsel. rewrite Hnew, Hco. simpl.
  rewrite Hcontact, (found_some _ Hnonempty). simpl.
  rewrite (is_type_false _ _ Hsent). simpl.
  rewrite Hlogin. simpl. rewrite (is_type_false _ _ Hev). simpl.
  rewrite (get_lookup _ _ _ Hpk). simpl.
  unfold version_reply, key_prefix. by rewrite <- !app_assoc.
Qed.

Lemma new_subscription_fields n p ver pw iv :
  new_subscription n p ver pw iv !! "enabled" = Some (PBool true) /\
  new_subscription n p ver pw iv !! "firmware_version" = Some ver /\
  new_subscription n p ver pw iv !! "pubkey_prefix" = Some (PStr p) /\
  new_subscription n p ver pw iv !! "name" = Some (PStr n).
Proof. unfold new_subscription. repeat split; by simplify_map_eq. Qed.



(** *** Hex-encoded keys *)

Lemma hex_byte_no_paren (b : Byte.byte) : has_char "(" (hex_byte b) = false.
Proof. by destruct b. Qed.

Lemma hex_encode_no_paren (key : list Byte.byte) : has_char "(" (hex_encode key) = false.
Proof.
  induction key as [|b key IH]; [done|].
  simpl hex_encode. by rewrite has_char_app, hex_byte_no_paren, IH.
Qed.

(** Twelve characters of a hex string are six bytes of the key. *)
Lemma key_prefix_hex (key : list Byte.byte) :
  key_prefix (hex_encode key) = hex_encode (take 6 key).
Proof.
  destruct key as [|b1 [|b2 [|b3 [|b4 [|b5 [|b6 rest]]]]]]; try reflexivity.
  unfold key_prefix, slice_to, slice.
  change (hex_encode (b1 :: b2 :: b3 :: b4 :: b5 :: b6 :: rest))
    with (hex_encode [b1; b2; b3; b4; b5; b6] +:+ hex_encode rest).
  rewrite length_app.
  change (String.length (hex_encode [b1; b2; b3; b4; b5; b6])) with 12%nat.
  rewrite clamp_in_range by lia. rewrite clamp_in_range by lia.
  change (Z.to_nat 0) with 0%nat. change (Z.to_nat (12 - 0)) with 12%nat.
  apply (substring_app_take (hex_encode [b1; b2; b3; b4; b5; b6])).
Qed.

Lemma key_prefix_nonempty (a : ascii) (pk : string) :
  exists a' s', key_prefix (String a pk) = String a' s'.
Proof.
  unfold key_prefix, slice_to, slice.
  set (n := Z.of_nat (String.length (String a pk))).
  assert (1 <= n) by (subst n; simpl String.length; lia).
  rewrite (clamp_in_range n 0) by lia.
  assert (exists k, Z.to_nat (clamp n 12 - 0) = S k) as (k & ->).
  { unfold clamp. simpl. exists (Z.to_nat (12 `min` n - 1)). lia. }
  simpl. eauto.
Qed.

(** The entry [_get_repeater_contacts] makes for a repeater contact with a
    non-empty public-key string. *)
Lemma repeater_contact_entry c contact name pk rest acc :
  contact !! "adv_name" = Some name ->
  truthy name = true ->
  py_eq (get contact "type") (NodeType_REPEATER c)
  || py_eq (get contact "type") (NodeType_ROOM_SERVER c) = true ->
  contact !! "public_key" = Some (PStr pk) ->
  pk <> "" ->
  repeater_contacts_loop c (ContactDict contact :: rest) acc
  = repeater_contacts_loop c rest (acc ++ [(key_prefix pk, name)]).
Proof.
  intros Hname Htruthy Htype Hpk Hne. simpl.
  unfold get_or. rewrite Hname, Hpk. simpl. rewrite Htruthy, Htype. simpl.
  destruct pk as [|a pk]; [done|]. simpl.
  fold (key_prefix (String a pk)).
  destruct (key_prefix_nonempty a pk) as (a' & s' & ->). reflexivity.
Qed.

(** C3, as the code has it. For a contact whose public key is the hex
    string of a non-empty byte sequence, the prefix that identifies it in
    the add form, the prefix the version wait filters on, and the
    [pubkey_prefix] stored in the subscription record are all the first 12
    characters of that string, which is the hex encoding of the first 6
    bytes of the key. *)
Theorem key_prefix_is_six_bytes c hass co ui contact name key rest acc ev h :
  key <> [] ->
  contact !! "adv_name" = Some name ->
  truthy name = true ->
  py_eq (get contact "type") (NodeType_REPEATER c)
  || py_eq (get contact "type") (NodeType_ROOM_SERVER c) = true ->
  contact !! "public_key" = Some (PStr (hex_encode key)) ->
  selects c hass ui (display_name name (PStr (hex_encode (take 6 key)))) ->
  coordinator hass = Some co ->
  ~ subscribed (hex_encode (take 6 key)) (repeater_subscriptions h) ->
  get_contact_by_key_prefix (mesh_core co) (hex_encode (take 6 key)) = Some contact ->
  type (send_login (mesh_core co) contact (get ui (CONF_REPEATER_PASSWORD c))) <> ERROR ->
  login_reply (mesh_core co) = Some ev ->
  type ev <> ERROR ->
  repeater_contacts_loop c (ContactDict contact :: rest) acc
  = repeater_contacts_loop c rest (acc ++ [(hex_encode (take 6 key), name)]) /\
  exists form h' record,
    async_step_add_repeater c hass (Some ui) h = (Ok form, h') /\
    GetContactByKeyPrefix (hex_encode (take 6 key)) ∈ sent h' /\
    WaitForEvent CONTACT_MSG_RECV
      (Some {[ "pubkey_prefix" := PStr (hex_encode (take 6 key)) ]}) 15 ∈ sent h' /\
    repeater_subscriptions h' = (repeater_subscriptions h ++ [record])%list /\
    record !! "pubkey_prefix" = Some (PStr (hex_encode (take 6 key))).
Proof.
  intros Hkey Hname Htruthy Htype Hpk Hsel Hco Hnew Hcontact Hsent Hlogin Hev.
  split.
  - rewrite <- key_prefix_hex.
    apply repeater_contact_entry; try done. by destruct key.
  - assert (prefix_in_label (display_name name (PStr (hex_encode (take 6 key))))
            = hex_encode (take 6 key)) as Hlabel
      by apply prefix_in_label_display, hex_encode_no_paren.
    rewrite (add_after_login c hass co ui
               (display_name name (PStr (hex_encode (take 6 key))))
               contact (hex_encode key) ev h);
      rewrite ?Hlabel; try done.
    eexists _, _, _. split; [reflexivity|]. simpl.
    rewrite key_prefix_hex.
    split; [set_solver|]. split; [set_solver|]. split; [reflexivity|].
    apply new_subscription_fields.
Qed.

End AddFacts.

(* ===================================================================== *)
(** ** The subscription list under removal and addition *)
(* ===================================================================== *)

Section ListFacts.
Import Spec Options.

#[local] Arguments prefix_in_label : simpl never.
#[local] Arguments init_form : simpl never.
#[local] Arguments async_step_add_repeater : simpl never.

(** The remove branch of [async_step_init], run to its end. *)
Lemma remove_run c hass ui label h :
  ui !! "action" = Some (PStr "remove_repeater") ->
  ui !! "repeater_to_remove" = Some (PStr label) ->
  label <> "" ->
  async_step_init c hass (Some ui) h
  = match without_repeater (prefix_in_label label) (repeater_subscriptions h) with
    | Ok kept =>
        match hass with
        | Some _ =>
            (Ok (init_form kept),
             {| repeater_subscriptions := kept;
                sent := sent h ++ [AsyncUpdateEntry kept] |})
        | None =>
            (Raise (no_attribute PNone "config_entries"),
             {| repeater_subscriptions := kept; sent := sent h |})
        end
    | Raise e => (Raise e, h)
    | Hang => (Hang, h)
    end.
Proof.
  intros Haction Hlabel Hne. unfold async_step_init.
  rewrite (get_lookup _ _ _ Haction), (get_lookup _ _ _ Hlabel).
  change (py_eq (PStr "remove_repeater") (PStr "add_repeater")) with false.
  change (py_eq (PStr "remove_repeater") (PStr "remove_repeater")) with true.
  apply truthy_str in Hne. rewrite Hne. run.
  destruct (without_repeater _ _); [|done|done]. by destruct hass.
Qed.

(** Whatever [async_step_init] is given, the subscription list stays as
    it was or becomes what the comprehension keeps. *)
Lemma init_subscriptions c hass ui h :
  let h' := (async_step_init c hass ui h).2 in
  repeater_subscriptions h' = repeater_subscriptions h \/
  exists p, repeater_subscriptions h'
            = filter (fun r => ~ prefix_extends p r) (repeater_subscriptions h).
Proof.
  unfold async_step_init. destruct ui as [ui|]; [|by left].
  destruct (py_eq _ _); [left; by rewrite add_without_input|].
  destruct (_ && _); [|by left].
  destruct (get ui "repeater_to_remove") as [| b | z | label]; try by left.
  run. destruct (without_repeater _ _) as [kept| |] eqn:E; try by left.
  right. exists (prefix_in_label label).
  apply without_repeater_filter in E as ->. by destruct hass.
Qed.


Lemma startswith_refl (p : string) : startswith p p = true.
Proof.
  unfold startswith. induction p as [|a p IH]; simpl; [done|].
  by destruct (ascii_dec a a).
Qed.

Lemma has_prefix_extends (p : string) (r : pydict) :
  p <> "" -> has_prefix p r -> prefix_extends p r.
Proof. intros Hne Hp. exists p. by rewrite startswith_refl. Qed.


Lemma no_prefix_not_extends (p : string) (r : pydict) :
  no_prefix r -> ~ prefix_extends p r.
Proof. intros [H | H] (q & Hq & Hne & _); congruence. Qed.

Lemma prefixes_sublist (l1 l2 : list pydict) :
  l1 `sublist_of` l2 -> prefixes l1 `sublist_of` prefixes l2.
Proof.
  unfold prefixes. induction 1 as [|x l1 l2 _ IH|x l1 l2 _ IH]; simpl.
  - constructor.
  - destruct (x !! "pubkey_prefix"); [by constructor | done].
  - destruct (x !! "pubkey_prefix"); [by constructor | done].
Qed.

Lemma filter_all {A} (P : A -> Prop) `{!forall x, Decision (P x)} (l : list A) :
  (forall x, x ∈ l -> P x) -> filter P l = l.
Proof.
  induction l as [|a l IH]; intros Hl; [done|].
  rewrite filter_cons_True by (apply Hl; by left).
  rewrite IH; [done|]. intros x Hx. apply Hl. by right.
Qed.





(** C10. A subscription whose [pubkey_prefix] is missing or empty is never
    removed: whatever input [async_step_init] is given, and so for every
    removal selection, the records without a prefix are the same before
    and after, in number and in order, and each of them is still in the
    list. *)
Theorem remove_keeps_prefixless c hass ui h :
  filter no_prefix (repeater_subscriptions (async_step_init c hass ui h).2)
  = filter no_prefix (repeater_subscriptions h) /\
  forall r, r ∈ repeater_subscriptions h -> no_prefix r ->
            r ∈ repeater_subscriptions (async_step_init c hass ui h).2.
Proof.
  destruct (init_subscriptions c hass ui h) as [-> | (p & ->)]; [done|].
  split.
  - apply list_filter_filter_l. intros r. apply no_prefix_not_extends.
  - intros r Hr Hno. apply list_elem_of_filter. split; [|done].
    by apply no_prefix_not_extends.
Qed.

Lemma prefixes_snoc (subs : list pydict) (r : pydict) (v : pyval) :
  r !! "pubkey_prefix" = Some v -> prefixes (subs ++ [r]) = (prefixes subs ++ [v])%list.
Proof. intros Hv. unfold prefixes. rewrite omap_app. simpl. by rewrite Hv. Qed.

Lemma add_preserves_unique_prefixes c hass ui h :
  unique_prefixes (repeater_subscriptions h) ->
  unique_prefixes (repeater_subscriptions (async_step_add_repeater c hass ui h).2).
Proof.
  intros Huniq.
  destruct (add_subscriptions c hass ui h)
    as [-> | (n & p & ver & pw & iv & Hnew & ->)]; [done|].
  unfold unique_prefixes.
  rewrite (prefixes_snoc _ _ (PStr p)) by apply new_subscription_fields.
  apply NoDup_app. split; [done|]. split; [|apply NoDup_singleton].
  intros v Hv Hv'. apply list_elem_of_singleton in Hv' as ->.
  apply py_in_not_subscribed in Hnew. apply Hnew.
  apply list_elem_of_omap in Hv as (r & Hr & Hp). by exists r.
Qed.

Lemma init_preserves_unique_prefixes c hass ui h :
  unique_prefixes (repeater_subscriptions h) ->
  unique_prefixes (repeater_subscriptions (async_step_init c hass ui h).2).
Proof.
  intros Huniq.
  destruct (init_subscriptions c hass ui h) as [-> | (p & ->)]; [done|].
  eapply sublist_NoDup; [exact Huniq|].
  apply prefixes_sublist, sublist_filter.
Qed.

(** C8. The two steps that change the subscription list, adding a
    repeater and removing one, keep the [pubkey_prefix] values of the
    list pairwise distinct, whatever their input and however they end. *)
Theorem steps_preserve_unique_prefixes c hass add_input init_input h :
  unique_prefixes (repeater_subscriptions h) ->
  unique_prefixes
    (repeater_subscriptions (async_step_add_repeater c hass add_input h).2) /\
  unique_prefixes
    (repeater_subscriptions (async_step_init c hass init_input h).2).
Proof.
  intros Huniq. split.
  - by apply add_preserves_unique_prefixes.
  - by apply init_preserves_unique_prefixes.
Qed.

End ListFacts.

(* ===================================================================== *)
(** ** Connection validation *)
(* ===================================================================== *)

Section ValidateFacts.
Import Spec Validate.

(** Unfold a validation down to the answers of the node. *)
Ltac run_validation :=
  unfold validate_common, validate_body, try_except, api_connect, send_appstart,
    api_disconnect, called, enter, mbind, M_bind, mret, M_ret, lift, modify, raise;
  simpl.

(** C6, in the code: when the transport connects and the identity request
    is answered with an [ERROR] event, validation raises [CannotConnect],
    but [api.disconnect()] is not among the calls it made: the session is
    left [Connecting], holding the transport. *)
Theorem appstart_error_leaves_transport_open c node api v :
  connects_in_time c node v ->
  truthy v = true ->
  mesh_core_set node = true ->
  appstart_error node ->
  exists api',
    validate_common c node api
    = (Raise (CannotConnect "Failed to connect: Failed to get node info"), api') /\
    calls api' = (calls api ++ [ApiConnect (CONNECTION_TIMEOUT c); SendAppstart])%list /\
    (ApiDisconnect ∉ [ApiConnect (CONNECTION_TIMEOUT c); SendAppstart]) /\
    session api' = Connecting /\
    holds_transport api' = true.
Proof.
  intros (t & Hconnect & Ht) Hv Hmesh (ta & ev & Happ & Hev).
  run_validation. rewrite Hconnect. simpl.
  apply N.ltb_lt in Ht. rewrite Ht. simpl. rewrite Hv, Hmesh. simpl.
  rewrite Happ. simpl.
  assert (type (if (ta <? identity_timeout node)%N then ev else no_event_received)
          = ERROR) as Hreply by (by destruct (ta <? identity_timeout node)%N).
  unfold is_type. rewrite !bool_decide_eq_true_2 by done. simpl.
  eexists. split; [reflexivity|]. simpl.
  rewrite <- !app_assoc. repeat split; try done.
  intros Hin. apply list_elem_of_In in Hin. simpl in Hin. intuition congruence.
Qed.

(** A connect still running when [CONNECTION_TIMEOUT] ends is cut short by
    [asyncio.wait_for]: validation fails with "Connection timed out". *)
Lemma connect_overrun_times_out c node api :
  connect_overruns c node ->
  (validate_common c node api).1 = Raise (CannotConnect "Connection timed out").
Proof.
  intros [Hnever | (t & Ht & [(v & Hr) | (e & Hr)])]; run_validation;
    rewrite ?Hnever, ?Hr; simpl; try done; apply N.ltb_ge in Ht; by rewrite Ht.
Qed.

(** The wait for the identity response always ends, and it ends with the
    timeout response for a node that does not answer in time. *)
Lemma await_within_unanswered node :
  no_identity_response node ->
  await_within (appstart_reply node) (identity_timeout node) = Ok no_event_received.
Proof.
  intros [-> | (t & Ht & [(ev & ->) | (e & ->)])]; simpl; [done| |];
    apply N.ltb_ge in Ht; by rewrite Ht.
Qed.

(** C7. The await of the identity response is bounded: for every node that
    never responds to the identity request, or responds only after the
    session's wait has ended, validation terminates with a failure, the
    exception [CannotConnect], and does not wait indefinitely, whatever the
    transport-level connect did before. When the connect had succeeded the
    failure is "Failed to connect: Failed to get node info", raised right
    after the identity request. *)
Theorem silent_node_fails_validation c node api :
  no_identity_response node ->
  exists msg api',
    validate_common c node api = (Raise (CannotConnect msg), api') /\
    (forall v, connects_in_time c node v -> truthy v = true ->
               mesh_core_set node = true ->
               msg = "Failed to connect: Failed to get node info" /\
               calls api'
               = (calls api ++ [ApiConnect (CONNECTION_TIMEOUT c); SendAppstart])%list).
Proof.
  intros Hsilent. apply await_within_unanswered in Hsilent.
  unfold connects_in_time. run_validation. rewrite Hsilent. simpl.
  destruct (connect_reply node) as [t v | t e |]; simpl;
    [destruct (N.ltb_spec t (CONNECTION_TIMEOUT c)); simpl
    | destruct (N.ltb_spec t (CONNECTION_TIMEOUT c)); simpl; [destruct e|]
    | ];
    try (eexists _, _; split; [reflexivity|];
         intros v' (t' & [= <- <-] & Ht'); lia);
    try (eexists _, _; split; [reflexivity|]; by intros v' (t' & [=] & Ht')).
  destruct (truthy v) eqn:Hv; simpl.
  - destruct (mesh_core_set node); simpl.
    + eexists _, _. split; [reflexivity|]. simpl.
      intros _ _ _ _. split; [done|]. by rewrite <- !app_assoc.
    + eexists _, _. split; [reflexivity|]. by intros.
  - eexists _, _. split; [reflexivity|].
    intros v' (t' & [= <- <-] & Ht') Hv'. congruence.
Qed.

End ValidateFacts.

(* ===================================================================== *)
(** ** The statements on concrete runs *)
(* ===================================================================== *)

Section Runs.
Import Spec Options Validate Samples.

(** C3 at Hilltop's key, the scenario of the specification: the code's prefix
    is 12 hex digits, the hex encoding of 12 bytes has 24. *)
Lemma key_prefix_12_bytes_counterexample :
  _get_repeater_contacts consts (hass_with mesh_ok) = Ok [("123456789abc", PStr "Hilltop")] /\
  (fun r : pydict => r !! "pubkey_prefix")
    <$> repeater_subscriptions
          (async_step_add_repeater consts (hass_with mesh_ok)
             (Some (submit hilltop_label "secret")) (new_handler [])).2
  = [Some (PStr "123456789abc")] /\
  sent (async_step_add_repeater consts (hass_with mesh_ok)
          (Some (submit hilltop_label "secret")) (new_handler [])).2 !! 4%nat
  = Some (WaitForEvent CONTACT_MSG_RECV
            (Some {[ "pubkey_prefix" := PStr "123456789abc" ]}) 15) /\
  key_prefix_of_12_bytes hilltop_key = "123456789abcdef012345678" /\
  "123456789abc" <> key_prefix_of_12_bytes hilltop_key.
Proof. repeat split; try (vm_compute; reflexivity). by vm_compute. Qed.


(** C9 on a subscribed prefix: the session has no contact for it, and the
    error is the one of the uniqueness check. *)
Lemma contact_not_found_counterexample :
  get_contact_by_key_prefix mesh_no_contact (prefix_in_label hilltop_label) = None /\
  step_error (async_step_add_repeater consts (hass_with mesh_no_contact)
                (Some (submit hilltop_label "secret"))
                (new_handler [subscription "Hilltop" "123456789abc"]))
  = Some already_configured /\
  Some already_configured <> Some contact_not_found.
Proof. repeat split; try (vm_compute; reflexivity). done. Qed.

(** *** The theorems at work *)

Lemma hilltop_selected (m : MeshCore) :
  selects consts (hass_with m) (submit hilltop_label "secret") hilltop_label.
Proof.
  split; [|reflexivity].
  exists [("123456789abc", PStr "Hilltop")]. split; [reflexivity | done].
Defined.

Lemma nothing_subscribed (p : string) : ~ subscribed p [].
Proof. intros (r & Hin & _). by apply not_elem_of_nil in Hin. Defined.

Lemma hilltop_has_key :
  hilltop !! "public_key" = Some (PStr (hex_encode hilltop_key)).
Proof. reflexivity. Defined.

Lemma add_rejects_subscribed_prefix_witness :
  subscribed (prefix_in_label hilltop_label) [subscription "Hilltop" "123456789abc"] /\
  exists form h',
    async_step_add_repeater consts (hass_with mesh_ok)
      (Some (submit hilltop_label "secret"))
      (new_handler [subscription "Hilltop" "123456789abc"]) = (Ok form, h') /\
    add_form_error form = Some already_configured /\
    sent h' = [] /\
    logins (sent h') = [] /\
    repeater_subscriptions h' = [subscription "Hilltop" "123456789abc"] /\
    length (repeater_subscriptions h') = 1%nat.
Proof.
  assert (subscribed (prefix_in_label hilltop_label)
            [subscription "Hilltop" "123456789abc"]) as Hsub.
  { exists (subscription "Hilltop" "123456789abc").
    split; [apply list_elem_of_here | reflexivity]. }
  split; [exact Hsub|].
  exact (add_rejects_subscribed_prefix consts (hass_with mesh_ok)
           (submit hilltop_label "secret") hilltop_label
           (new_handler [subscription "Hilltop" "123456789abc"])
           (hilltop_selected mesh_ok) Hsub).
Defined.

Lemma login_wait_failure_witness :
  wait_for_event mesh_login_timeout LOGIN_SUCCESS None 10 = None /\
  exists form h',
    async_step_add_repeater consts (hass_with mesh_login_timeout)
      (Some (submit hilltop_label "secret")) (new_handler []) = (Ok form, h') /\
    add_form_error form = Some login_timed_out /\
    sent h' = [GetContactByKeyPrefix "123456789abc";
               SendLogin hilltop (PStr "secret");
               WaitForEvent LOGIN_SUCCESS None 10] /\
    repeater_subscriptions h' = [].
Proof.
  split; [reflexivity|].
  refine (login_wait_failure consts (hass_with mesh_login_timeout)
            (coordinator_with mesh_login_timeout)
            (submit hilltop_label "secret") hilltop_label hilltop (new_handler [])
            (hilltop_selected _) eq_refl (nothing_subscribed _) eq_refl _ _ _).
  - apply insert_non_empty.
  - discriminate.
  - left. reflexivity.
Defined.

Lemma add_without_contact_witness :
  get_contact_by_key_prefix mesh_no_contact (prefix_in_label hilltop_label) = None /\
  exists form h',
    async_step_add_repeater consts (hass_with mesh_no_contact)
      (Some (submit hilltop_label "secret")) (new_handler []) = (Ok form, h') /\
    (~ subscribed (prefix_in_label hilltop_label) [] ->
     add_form_error form = Some contact_not_found) /\
    (subscribed (prefix_in_label hilltop_label) [] ->
     add_form_error form = Some already_configured) /\
    logins (sent h') = [] /\
    repeater_subscriptions h' = [].
Proof.
  split; [reflexivity|].
  exact (add_without_contact consts (hass_with mesh_no_contact)
           (coordinator_with mesh_no_contact)
           (submit hilltop_label "secret") hilltop_label (new_handler [])
           (hilltop_selected _) eq_refl eq_refl).
Defined.


Lemma key_prefix_is_six_bytes_witness :
  hex_encode (take 6 hilltop_key) = "123456789abc" /\
  repeater_contacts_loop consts [ContactDict hilltop] []
  = Ok [(hex_encode (take 6 hilltop_key), PStr "Hilltop")] /\
  exists form h' record,
    async_step_add_repeater consts (hass_with mesh_ok)
      (Some (submit hilltop_label "secret")) (new_handler []) = (Ok form, h') /\
    GetContactByKeyPrefix (hex_encode (take 6 hilltop_key)) ∈ sent h' /\
    WaitForEvent CONTACT_MSG_RECV
      (Some {[ "pubkey_prefix" := PStr (hex_encode (take 6 hilltop_key)) ]}) 15
      ∈ sent h' /\
    repeater_subscriptions h' = [record] /\
    record !! "pubkey_prefix" = Some (PStr (hex_encode (take 6 hilltop_key))).
Proof.
  split; [reflexivity|].
  refine (key_prefix_is_six_bytes consts (hass_with mesh_ok) (coordinator_with mesh_ok)
            (submit hilltop_label "secret") hilltop (PStr "Hilltop") hilltop_key
            [] [] login_ok (new_handler [])
            _ eq_refl eq_refl eq_refl hilltop_has_key (hilltop_selected _) eq_refl
            (nothing_subscribed _) eq_refl _ eq_refl _);
    discriminate.
Defined.



Lemma appstart_error_leaves_transport_open_witness :
  appstart_error (node (Resolves 0 send_error)) /\
  exists api',
    validate_common consts (node (Resolves 0 send_error)) new_api
    = (Raise (CannotConnect "Failed to connect: Failed to get node info"), api') /\
    calls api' = [ApiConnect 10000; SendAppstart] /\
    (ApiDisconnect ∉ [ApiConnect 10000; SendAppstart]) /\
    session api' = Connecting /\
    holds_transport api' = true.
Proof.
  assert (appstart_error (node (Resolves 0 send_error))) as Herr
    by (exists 0%N, send_error; split; reflexivity).
  split; [exact Herr|].
  refine (appstart_error_leaves_transport_open consts (node (Resolves 0 send_error))
            new_api (PBool true) _ eq_refl eq_refl Herr).
  exists 0%N. split; reflexivity.
Defined.

Lemma silent_node_fails_validation_witness :
  no_identity_response (node Never) /\
  exists msg api',
    validate_common consts (node Never) new_api = (Raise (CannotConnect msg), api') /\
    msg = "Failed to connect: Failed to get node info" /\
    calls api' = [ApiConnect 10000; SendAppstart].
Proof.
  assert (no_identity_response (node Never)) as Hsilent by (left; reflexivity).
  split; [exact Hsilent|].
  destruct (silent_node_fails_validation consts (node Never) new_api Hsilent)
    as (msg & api' & Hrun & Hconnected).
  exists msg, api'. split; [exact Hrun|].
  apply (Hconnected (PBool true)); [|reflexivity|reflexivity].
  exists 0%N. split; reflexivity.
Defined.

Lemma steps_preserve_unique_prefixes_witness :
  unique_prefixes [subscription "Valley" "abcdef012345"] /\
  unique_prefixes
    (repeater_subscriptions
       (async_step_add_repeater consts (hass_with mesh_ok)
          (Some (submit hilltop_label "secret"))
          (new_handler [subscription "Valley" "abcdef012345"])).2) /\
  unique_prefixes
    (repeater_subscriptions
       (async_step_init consts (hass_with mesh_ok)
          (Some (remove_input "Valley (abcdef012345)"))
          (new_handler [subscription "Valley" "abcdef012345"])).2).
Proof.
  assert (unique_prefixes [subscription "Valley" "abcdef012345"]) as Huniq
    by apply NoDup_singleton.
  split; [exact Huniq|].
  exact (steps_preserve_unique_prefixes consts (hass_with mesh_ok)
           (Some (submit hilltop_label "secret"))
           (Some (remove_input "Valley (abcdef012345)"))
           (new_handler [subscription "Valley" "abcdef012345"]) Huniq).
Defined.

End Runs.

(* ===================================================================== *)
(** ** More about connection validation *)
(* ===================================================================== *)

Section ValidationOutcomes.
Import Spec Validate.

Ltac run_validation :=
  unfold validate_common, validate_body, try_except, api_connect, send_appstart,
    api_disconnect, called, enter, mbind, M_bind, mret, M_ret, lift, modify, raise;
  simpl.

(** The handlers of [validate_common] turn every exception into a
    [CannotConnect]. *)
Lemma validate_common_handlers c node api e :
  (validate_common c node api).1 = Raise e ->
  e = CannotConnect "Connection timed out" \/
  exists ex, (validate_body c node api).1 = Raise ex /\
             e = CannotConnect ("Failed to connect: " +:+ exn_str ex).
Proof.
  unfold validate_common, try_except.
  destruct (validate_body c node api) as [[info | ex |] api'] eqn:Hbody; simpl;
    [done | | done].
  destruct ex; unfold raise; simpl; intros [= <-]; eauto.
Qed.

(** X1. Whatever the node and the API do, the only exception
    [validate_common] lets out is [CannotConnect], with the message
    "Connection timed out" or "Failed to connect: ..." around the text of
    the exception caught. *)
Theorem validate_common_raises_cannot_connect c node api e :
  (validate_common c node api).1 = Raise e ->
  e = CannotConnect "Connection timed out" \/
  exists text, e = CannotConnect ("Failed to connect: " +:+ text).
Proof.
  intros H. destruct (validate_common_handlers c node api e H) as [-> | (ex & _ & ->)];
    eauto.
Qed.

(** What a validation that returns has gone through. *)
Lemma validate_common_ok c node api info api' :
  validate_common c node api = (Ok info, api') ->
  exists v t ev pk,
    connects_in_time c node v /\ truthy v = true /\ mesh_core_set node = true /\
    appstart_reply node = Resolves t ev /\ type ev <> ERROR /\
    get_or (payload ev) "public_key" (PStr "") = PStr pk /\
    info = {[ "title" := PStr ("MeshCore Node "
                               +:+ py_str (get_or (payload ev) "name" (PStr "Unknown")));
              "name" := get_or (payload ev) "name" (PStr "Unknown");
              "pubkey" := PStr pk ]} /\
    api' = {| session := Disconnected;
              calls := calls api ++ [ApiConnect (CONNECTION_TIMEOUT c);
                                     SendAppstart; ApiDisconnect] |}.
Proof.
  run_validation.
  destruct (connect_reply node) as [t v | t e |] eqn:Hc; simpl;
    [destruct (N.ltb_spec t (CONNECTION_TIMEOUT c)); simpl
    | destruct (N.ltb_spec t (CONNECTION_TIMEOUT c)); simpl; [destruct e|]
    | ]; try done.
  destruct (truthy v) eqn:Hv; simpl; [|done].
  destruct (mesh_core_set node) eqn:Hm; simpl; [|done].
  destruct (appstart_reply node) as [ta ev | ta e |] eqn:Ha; simpl;
    [destruct (ta <? identity_timeout node)%N; simpl; [|done]
    | destruct (ta <? identity_timeout node)%N; simpl; [by destruct e | done]
    | done].
  destruct (decide (type ev = ERROR)) as [Hev | Hev];
    [rewrite !(is_type_true _ _ Hev) | rewrite !(is_type_false _ _ Hev)];
    simpl; [done|].
  destruct (disconnect_reply node) as [td u | td e |]; simpl;
    [| by destruct e | done].
  destruct (get_or (payload ev) "public_key" (PStr "")) as [| b | z | pk] eqn:Hpk;
    simpl; try done.
  intros [= <- <-].
  exists v, ta, ev, pk. rewrite Hpk, <- !app_assoc. repeat split; try done.
  by exists t.
Qed.

(** X2. [validate_common] returns only after the whole exchange: the
    connect completed in time with a true result, the identity request was
    answered without error, and [api.disconnect()] was the last of exactly
    three calls on the API. *)
Theorem validation_success_disconnects c node api info api' :
  validate_common c node api = (Ok info, api') ->
  (exists v, connects_in_time c node v /\ truthy v = true) /\
  mesh_core_set node = true /\
  (exists t ev, appstart_reply node = Resolves t ev /\ type ev <> ERROR) /\
  calls api' = (calls api ++ [ApiConnect (CONNECTION_TIMEOUT c);
                              SendAppstart; ApiDisconnect])%list.
Proof.
  intros H.
  destruct (validate_common_ok c node api info api' H)
    as (v & t & ev & pk & Hc & Hv & Hm & Ha & Hev & _ & _ & ->).
  repeat split; eauto.
Qed.

(** X3. The dictionary a successful validation returns: the name is the
    node's ["name"], or "Unknown" when the identity payload has none; the
    title is "MeshCore Node " followed by it; and the pubkey is a string,
    the payload's ["public_key"] or "" when it has none. A payload whose
    public key is not a string never validates. *)
Theorem validation_info c node api info api' :
  validate_common c node api = (Ok info, api') ->
  exists t ev pk,
    appstart_reply node = Resolves t ev /\
    info !! "name" = Some (default (PStr "Unknown") (payload ev !! "name")) /\
    info !! "title"
    = Some (PStr ("MeshCore Node "
                  +:+ py_str (default (PStr "Unknown") (payload ev !! "name")))) /\
    info !! "pubkey" = Some (PStr pk) /\
    default (PStr "") (payload ev !! "public_key") = PStr pk.
Proof.
  intros H.
  destruct (validate_common_ok c node api info api' H)
    as (v & t & ev & pk & _ & _ & _ & Ha & _ & Hpk & -> & _).
  exists t, ev, pk. unfold get_or in *. repeat split; try done; by simplify_map_eq.
Qed.

(** X4. When the connect completes in time but its result is false, or the
    API has no [_mesh_core] afterwards, validation fails with "Failed to
    connect: Device connection failed" and the identity request is never
    sent: the connect is the only call made. *)
Theorem connect_failure_skips_appstart c node api v :
  connects_in_time c node v ->
  truthy v = false \/ mesh_core_set node = false ->
  exists api',
    validate_common c node api
    = (Raise (CannotConnect "Failed to connect: Device connection failed"), api') /\
    calls api' = (calls api ++ [ApiConnect (CONNECTION_TIMEOUT c)])%list.
Proof.
  intros (t & Hc & Ht) Hfail. run_validation. rewrite Hc. simpl.
  apply N.ltb_lt in Ht. rewrite Ht. simpl.
  destruct Hfail as [Hv | Hm].
  - rewrite Hv. simpl. eauto.
  - rewrite Hm, orb_true_r. simpl. destruct (truthy v); simpl; eauto.
Qed.

End ValidationOutcomes.

(* ===================================================================== *)
(** ** The config flow *)
(* ===================================================================== *)

(** The config flow on a serial device that answers, on a TCP device that
    does not, and on the first form. *)
Example usb_entry_demo :
  ConfigFlow.async_step_usb Samples.consts FlowSamples.flow_consts FlowSamples.world
    (Some FlowSamples.usb_input) ConfigFlow.new_flow
  = (Ok (ConfigFlow.ConfigEntry (PStr "MeshCore Node Base")
           {[ "connection_type" := ConfigFlow.Scalar (PStr "usb");
              "usb_path" := ConfigFlow.Scalar (PStr "/dev/ttyUSB0");
              "baudrate" := ConfigFlow.Scalar (PInt 115200);
              "name" := ConfigFlow.Scalar (PStr "Base");
              "pubkey" := ConfigFlow.Scalar (PStr "a1b2");
              "repeater_subscriptions" := ConfigFlow.Subscriptions [] ]}),
     {| ConfigFlow.connection_type := None;
        ConfigFlow.validated :=
          [(ConfigFlow.UsbApi (PStr "/dev/ttyUSB0") (PInt 115200),
            {| Validate.session := Validate.Disconnected;
               Validate.calls := [Validate.ApiConnect 10000; Validate.SendAppstart;
                                  Validate.ApiDisconnect] |})];
        ConfigFlow.scans := 0 |}).
Proof. vm_compute. reflexivity. Qed.

Example tcp_failure_demo :
  (ConfigFlow.async_step_tcp Samples.consts FlowSamples.flow_consts FlowSamples.world
     (Some FlowSamples.tcp_input) ConfigFlow.new_flow).1
  = Ok (ConfigFlow.ConfigForm "tcp" (ConfigFlow.TcpSchema (PInt 5000))
          {[ "base" := "cannot_connect" ]}).
Proof. vm_compute. reflexivity. Qed.

Example user_step_demo :
  (ConfigFlow.async_step_user Samples.consts FlowSamples.flow_consts FlowSamples.world
     (Some {[ "connection_type" := PStr "ble" ]}) ConfigFlow.new_flow)
  = (Ok (ConfigFlow.ConfigForm "ble"
           (ConfigFlow.BleChoiceSchema {[ "AA:BB" := "MeshCore-1234 (AA:BB)" ]}) ∅),
     {| ConfigFlow.connection_type := Some (PStr "ble");
        ConfigFlow.validated := [];
        ConfigFlow.scans := 1 |}).
Proof. vm_compute. reflexivity. Qed.

Section ConfigFlowFacts.
Import Spec Props Validate ConfigFlow.
Context (c : Consts) (fc : FlowConsts) (w : World).

Ltac run_flow :=
  unfold async_step_usb, async_step_tcp, async_step_ble, async_step_user, attempt,
    usb_entry, tcp_entry, ble_entry, validate_usb_input, validate_tcp_input,
    validate_ble_input, validate_api, scan, try_except, subscript,
    mbind, M_bind, mret, M_ret, lift, modify, raise; simpl.

Lemma validate_new_api_ok node info api :
  validate_common c node new_api = (Ok info, api) ->
  api = validated_api c /\ is_Some (info !! "title").
Proof.
  intros H. destruct (validate_common_ok c node new_api info api H)
    as (v & t & ev & pk & _ & _ & _ & _ & _ & _ & -> & ->).
  split; [reflexivity|]. by simplify_map_eq.
Qed.

Lemma validate_new_api_raise node e api :
  validate_common c node new_api = (Raise e, api) -> exists msg, e = CannotConnect msg.
Proof.
  intros H.
  destruct (validate_common_handlers c node new_api e) as [-> | (ex & _ & ->)];
    [by rewrite H | eauto | eauto].
Qed.

Lemma last_item_wins {V} (items : list (string * V)) (k : string) (v : V) :
  dict_display (items ++ [(k, v)]) !! k = Some v.
Proof. unfold dict_display. rewrite foldl_app. simpl. apply lookup_insert_eq. Qed.

(** X5. A config entry comes only out of a validation that returned: when
    one of the three connection steps creates an entry, it has built one
    API object, on which connect, the identity request and disconnect were
    called, in this order and nothing else; and the entry starts with an
    empty list of repeater subscriptions. *)
Theorem entry_needs_validation user_input flow title data flow' :
  async_step_usb c fc w user_input flow = (Ok (ConfigEntry title data), flow') \/
  async_step_ble c fc w user_input flow = (Ok (ConfigEntry title data), flow') \/
  async_step_tcp c fc w user_input flow = (Ok (ConfigEntry title data), flow') ->
  (exists params,
     validated flow' = (validated flow ++ [(params, validated_api c)])%list) /\
  scans flow' = scans flow /\
  data !! CONF_REPEATER_SUBSCRIPTIONS fc = Some (Subscriptions []).
Proof.
  intros [H | [H | H]]; revert H; run_flow;
    (destruct user_input as [ui|]; simpl;
     [| try done; by destruct (discover w) as [? | [] |]]).
  - destruct (ui !! CONF_USB_PATH fc) as [p|] eqn:Hp; simpl; [|done].
    destruct (ui !! CONF_BAUDRATE fc) as [b|] eqn:Hb; simpl; [|done].
    destruct (validate_common c (device w (UsbApi p b)) new_api) as [[info | e |] api]
      eqn:Hv; simpl; [| by destruct e | done].
    destruct (validate_new_api_ok _ _ _ Hv) as (-> & (t & Ht)). rewrite Ht. simpl.
    intros [= <- <- <-]. simpl. split; [eauto|]. split; [done|].
    apply (last_item_wins [_; _; _; _; _]).
  - destruct (ui !! CONF_BLE_ADDRESS fc) as [a|] eqn:Ha; simpl.
    + destruct (validate_common c (device w (BleApi a)) new_api) as [[info | e |] api]
        eqn:Hv; simpl.
      * destruct (validate_new_api_ok _ _ _ Hv) as (-> & (t & Ht)). rewrite Ht. simpl.
        intros [= <- <- <-]. simpl. split; [eauto|]. split; [done|].
        apply (last_item_wins [_; _; _; _]).
      * destruct e; simpl; by destruct (discover w) as [? | [] |].
      * done.
    + by destruct (discover w) as [? | [] |].
  - destruct (ui !! CONF_TCP_HOST fc) as [p|] eqn:Hp; simpl; [|done].
    destruct (ui !! CONF_TCP_PORT fc) as [b|] eqn:Hb; simpl; [|done].
    destruct (validate_common c (device w (TcpApi p b)) new_api) as [[info | e |] api]
      eqn:Hv; simpl; [| by destruct e | done].
    destruct (validate_new_api_ok _ _ _ Hv) as (-> & (t & Ht)). rewrite Ht. simpl.
    intros [= <- <- <-]. simpl. split; [eauto|]. split; [done|].
    apply (last_item_wins [_; _; _; _; _]).
Qed.

(** X6. A submitted form that lacks a key the step reads ends with the
    error "unknown": the [KeyError] is caught by the step, no API object is
    built and nothing is validated. *)
Theorem missing_key_is_unknown (ui : pydict) flow :
  (ui !! CONF_USB_PATH fc = None \/ ui !! CONF_BAUDRATE fc = None ->
   async_step_usb c fc w (Some ui) flow
   = (Ok (ConfigForm "usb" (UsbSchema (DEFAULT_BAUDRATE fc)) {[ "base" := "unknown" ]}),
      flow)) /\
  (ui !! CONF_TCP_HOST fc = None \/ ui !! CONF_TCP_PORT fc = None ->
   async_step_tcp c fc w (Some ui) flow
   = (Ok (ConfigForm "tcp" (TcpSchema (DEFAULT_TCP_PORT fc)) {[ "base" := "unknown" ]}),
      flow)) /\
  (ui !! CONF_BLE_ADDRESS fc = None ->
   discover w <> Hang ->
   form_error (async_step_ble c fc w (Some ui) flow).1 "ble" "unknown" /\
   validated (async_step_ble c fc w (Some ui) flow).2 = validated flow).
Proof.
  split; [|split].
  - run_flow. intros [-> | Hb]; simpl; [done|].
    destruct (ui !! CONF_USB_PATH fc); simpl; by rewrite ?Hb.
  - run_flow. intros [-> | Hb]; simpl; [done|].
    destruct (ui !! CONF_TCP_HOST fc); simpl; by rewrite ?Hb.
  - run_flow. intros -> Hscan. simpl. unfold form_error.
    destruct (discover w) as [found | e |]; simpl; [| | done]; split; eauto.
Qed.

(** X7. With the keys of the form present, a connection step follows the
    validation of the device it names: the entry when validation returns,
    the form with "cannot_connect" when validation raises, and no result
    while validation hangs. It never raises itself and never answers
    "unknown". *)
Theorem connection_step_follows_validation (ui : pydict) flow :
  (forall path baud,
     ui !! CONF_USB_PATH fc = Some path -> ui !! CONF_BAUDRATE fc = Some baud ->
     match (validate_common c (device w (UsbApi path baud)) new_api).1 with
     | Ok info =>
         exists data, (async_step_usb c fc w (Some ui) flow).1
                      = Ok (ConfigEntry (get info "title") data)
     | Raise _ => form_error (async_step_usb c fc w (Some ui) flow).1 "usb" "cannot_connect"
     | Hang => (async_step_usb c fc w (Some ui) flow).1 = Hang
     end) /\
  (forall host port,
     ui !! CONF_TCP_HOST fc = Some host -> ui !! CONF_TCP_PORT fc = Some port ->
     match (validate_common c (device w (TcpApi host port)) new_api).1 with
     | Ok info =>
         exists data, (async_step_tcp c fc w (Some ui) flow).1
                      = Ok (ConfigEntry (get info "title") data)
     | Raise _ => form_error (async_step_tcp c fc w (Some ui) flow).1 "tcp" "cannot_connect"
     | Hang => (async_step_tcp c fc w (Some ui) flow).1 = Hang
     end) /\
  (forall addr,
     ui !! CONF_BLE_ADDRESS fc = Some addr ->
     match (validate_common c (device w (BleApi addr)) new_api).1 with
     | Ok info =>
         exists data, (async_step_ble c fc w (Some ui) flow).1
                      = Ok (ConfigEntry (get info "title") data)
     | Raise _ =>
         discover w <> Hang ->
         form_error (async_step_ble c fc w (Some ui) flow).1 "ble" "cannot_connect"
     | Hang => (async_step_ble c fc w (Some ui) flow).1 = Hang
     end).
Proof.
  split; [|split].
  - intros p b Hp Hb. run_flow. rewrite Hp, Hb. simpl.
    destruct (validate_common c (device w (UsbApi p b)) new_api) as [[info | e |] api]
      eqn:Hv; simpl; [| | done].
    + destruct (validate_new_api_ok _ _ _ Hv) as (_ & (t & Ht)).
      unfold get. rewrite Ht. simpl. eauto.
    + destruct (validate_new_api_raise _ _ _ Hv) as (msg & ->). simpl.
      unfold form_error. eauto.
  - intros p b Hp Hb. run_flow. rewrite Hp, Hb. simpl.
    destruct (validate_common c (device w (TcpApi p b)) new_api) as [[info | e |] api]
      eqn:Hv; simpl; [| | done].
    + destruct (validate_new_api_ok _ _ _ Hv) as (_ & (t & Ht)).
      unfold get. rewrite Ht. simpl. eauto.
    + destruct (validate_new_api_raise _ _ _ Hv) as (msg & ->). simpl.
      unfold form_error. eauto.
  - intros a Ha. run_flow. rewrite Ha. simpl.
    destruct (validate_common c (device w (BleApi a)) new_api) as [[info | e |] api]
      eqn:Hv; simpl; [| | done].
    + destruct (validate_new_api_ok _ _ _ Hv) as (_ & (t & Ht)).
      unfold get. rewrite Ht. simpl. eauto.
    + destruct (validate_new_api_raise _ _ _ Hv) as (msg & ->). simpl.
      intros Hscan. unfold form_error.
      destruct (discover w) as [found | e |]; simpl; [| | done]; eauto.
Qed.

(** X8. The first step only dispatches: whatever it is given, it creates
    no entry and validates no device. It raises only for an input without
    the connection type, and a connection type that is none of the three
    known ones shows the first form again. *)
Theorem user_step_only_dispatches user_input flow :
  validated (async_step_user c fc w user_input flow).2 = validated flow /\
  (forall title data,
     (async_step_user c fc w user_input flow).1 <> Ok (ConfigEntry title data)) /\
  (forall e, (async_step_user c fc w user_input flow).1 = Raise e ->
             exists ui, user_input = Some ui /\ ui !! CONF_CONNECTION_TYPE fc = None) /\
  (forall ui ct,
     user_input = Some ui -> ui !! CONF_CONNECTION_TYPE fc = Some ct ->
     py_eq ct (CONNECTION_TYPE_USB fc) = false ->
     py_eq ct (CONNECTION_TYPE_BLE fc) = false ->
     py_eq ct (CONNECTION_TYPE_TCP fc) = false ->
     (async_step_user c fc w user_input flow).1 = Ok (ConfigForm "user" UserSchema ∅)).
Proof.
  assert (forall (ui ui' : pydict) (ct ct' : pyval) (P : Prop),
            ui !! CONF_CONNECTION_TYPE fc = Some ct ->
            (py_eq ct (CONNECTION_TYPE_USB fc) = true \/
             py_eq ct (CONNECTION_TYPE_BLE fc) = true \/
             py_eq ct (CONNECTION_TYPE_TCP fc) = true) ->
            Some ui = Some ui' -> ui' !! CONF_CONNECTION_TYPE fc = Some ct' ->
            py_eq ct' (CONNECTION_TYPE_USB fc) = false ->
            py_eq ct' (CONNECTION_TYPE_BLE fc) = false ->
            py_eq ct' (CONNECTION_TYPE_TCP fc) = false -> P) as Hother.
  { intros ui ui' ct ct' P Hct Hsome Hu Hct' H1 H2 H3. simplify_eq.
    destruct Hsome as [? | [? | ?]]; congruence. }
  run_flow. destruct user_input as [ui|]; simpl.
  - destruct (ui !! CONF_CONNECTION_TYPE fc) as [ct|] eqn:Hct; simpl.
    + destruct (py_eq ct (CONNECTION_TYPE_USB fc)) eqn:Husb; simpl.
      { repeat split; try done. intros ui' ct'. eapply Hother; eauto. }
      destruct (py_eq ct (CONNECTION_TYPE_BLE fc)) eqn:Hble; simpl.
      { run_flow. destruct (discover w) as [found | e |]; simpl; repeat split; try done;
          intros ui' ct'; eapply Hother; eauto. }
      destruct (py_eq ct (CONNECTION_TYPE_TCP fc)) eqn:Htcp; simpl.
      { repeat split; try done. intros ui' ct'. eapply Hother; eauto. }
      repeat split; done.
    + repeat split; try done.
      * intros e _. eauto.
      * intros ui' ct' Hu Hc'. simplify_eq.
  - repeat split; done.
Qed.

Lemma contains_nonempty (n : string) : contains "MeshCore" n = true -> n <> "".
Proof. by intros H ->. Qed.

Lemma meshcore_devices_lookup discovered acc addr label :
  meshcore_devices discovered acc !! addr = Some label ->
  acc !! addr = Some label \/
  exists dev n, dev ∈ discovered /\ address dev = addr /\ name dev = Some n /\
                contains "MeshCore" n = true /\ label = n +:+ " (" +:+ addr +:+ ")".
Proof.
  revert acc. induction discovered as [|dev rest IH]; intros acc H; simpl in H; [by left|].
  assert (forall acc', meshcore_devices rest acc' !! addr = Some label ->
            acc' = acc ->
            acc !! addr = Some label \/
            exists dev' n, dev' ∈ dev :: rest /\ address dev' = addr /\ name dev' = Some n /\
                           contains "MeshCore" n = true
                           /\ label = n +:+ " (" +:+ addr +:+ ")") as Hskip.
  { intros acc' H' ->. destruct (IH _ H') as [? | (d & n & Hd & ?)]; [by left|].
    right. exists d, n. split; [by right | done]. }
  destruct (name dev) as [n|] eqn:Hn; [|by eapply Hskip].
  destruct (negb (String.eqb n "") && contains "MeshCore" n) eqn:Hm; [|by eapply Hskip].
  apply andb_true_iff in Hm as [_ Hc].
  destruct (IH _ H) as [Hacc | (d & n' & Hd & ?)].
  - destruct (decide (address dev = addr)) as [<- | Hne].
    + rewrite lookup_insert_eq in Hacc. injection Hacc as <-.
      right. exists dev, n. split; [by left | done].
    + rewrite lookup_insert_ne in Hacc by done. by left.
  - right. exists d, n'. split; [by right | done].
Qed.

Lemma meshcore_devices_keeps discovered acc addr :
  is_Some (acc !! addr) -> is_Some (meshcore_devices discovered acc !! addr).
Proof.
  revert acc. induction discovered as [|dev rest IH]; intros acc H; simpl; [done|].
  destruct (name dev) as [n|]; [|by apply IH].
  destruct (_ && _); [|by apply IH].
  apply IH. destruct (decide (address dev = addr)) as [<- | Hne].
  - by rewrite lookup_insert_eq.
  - by rewrite lookup_insert_ne.
Qed.

Lemma meshcore_devices_offered discovered acc dev :
  dev ∈ discovered -> is_meshcore dev ->
  is_Some (meshcore_devices discovered acc !! address dev).
Proof.
  intros Hin (n & Hn & Hc). revert acc.
  induction discovered as [|d rest IH]; intros acc; [by apply not_elem_of_nil in Hin|].
  apply elem_of_cons in Hin as [-> | Hin]; simpl.
  - rewrite Hn, Hc, andb_true_r.
    destruct (String.eqb_spec n "") as [-> | _]; [done|]. simpl.
    apply meshcore_devices_keeps. by rewrite lookup_insert_eq.
  - destruct (name d); [destruct (_ && _)|]; by apply IH.
Qed.

(** X9. The Bluetooth form, shown without input. A scan that raises is
    swallowed and the form asks for an address by hand. A scan that returns
    offers exactly the addresses of the devices whose advertised name
    contains "MeshCore", each labelled "name (address)" after such a device,
    and falls back to entry by hand when there is none. *)
Theorem ble_form_offers_meshcore_devices flow :
  (forall e, discover w = Raise e ->
     (async_step_ble c fc w None flow).1 = Ok (ConfigForm "ble" BleManualSchema ∅)) /\
  (forall found, discover w = Ok found ->
     exists schema,
       (async_step_ble c fc w None flow).1 = Ok (ConfigForm "ble" schema ∅) /\
       (forall addr label,
          offers schema addr label ->
          exists dev n, dev ∈ found /\ address dev = addr /\ name dev = Some n /\
                        contains "MeshCore" n = true /\
                        label = n +:+ " (" +:+ addr +:+ ")") /\
       (forall dev, dev ∈ found -> is_meshcore dev ->
                    exists label, offers schema (address dev) label) /\
       (schema = BleManualSchema <-> forall dev, dev ∈ found -> ~ is_meshcore dev)).
Proof.
  split.
  - intros e He. run_flow. by rewrite He.
  - intros found Hfound. run_flow. rewrite Hfound. simpl.
    eexists. split; [reflexivity|].
    case_bool_decide as Hempty; simpl.
    + split; [done|]. split.
      * intros dev Hin Hm.
        destruct (meshcore_devices_offered found ∅ dev Hin Hm) as (label & Hl).
        by rewrite Hempty, lookup_empty in Hl.
      * split; [|done]. intros _ dev Hin Hm.
        destruct (meshcore_devices_offered found ∅ dev Hin Hm) as (label & Hl).
        by rewrite Hempty, lookup_empty in Hl.
    + split; [|split].
      * intros addr label Hl.
        destruct (meshcore_devices_lookup _ _ _ _ Hl) as [Hl' | ?]; [|done].
        by rewrite lookup_empty in Hl'.
      * intros dev Hin Hm. by apply meshcore_devices_offered.
      * split; [done|]. intros Hnone. exfalso. apply Hempty.
        apply map_eq. intros addr. rewrite lookup_empty.
        destruct (meshcore_devices found ∅ !! addr) as [label|] eqn:Hl; [|done].
        destruct (meshcore_devices_lookup _ _ _ _ Hl) as [Hl' | (dev & n & Hin & _ & Hn & Hc & _)].
        -- by rewrite lookup_empty in Hl'.
        -- exfalso. apply (Hnone dev Hin). by exists n.
Qed.

End ConfigFlowFacts.

(* ===================================================================== *)
(** ** Labels *)
(* ===================================================================== *)

Section LabelFacts.
Import Spec Options.

Lemma rev_app_app (a b acc : string) :
  String.rev_app (a +:+ b) acc = String.rev_app b (String.rev_app a acc).
Proof.
  revert acc. induction a as [|x a IH]; intros acc; [reflexivity|].
  change (String x a +:+ b) with (String x (a +:+ b)). simpl. apply IH.
Qed.

Lemma rev_snoc (a : string) (x : ascii) :
  String.rev (a +:+ String x "") = String x (String.rev a).
Proof. unfold String.rev. by rewrite rev_app_app. Qed.

Lemma lstrip_app (a b : string) :
  lstrip (a +:+ b) = if String.eqb (lstrip a) "" then lstrip b else lstrip a +:+ b.
Proof.
  induction a as [|x a IH]; [reflexivity|].
  change (String x a +:+ b) with (String x (a +:+ b)). simpl.
  destruct (isspace x); [exact IH | reflexivity].
Qed.

(** A blank after the name does not survive [strip]. *)
Lemma strip_snoc_space (n : string) : strip (n +:+ " ") = strip n.
Proof.
  unfold strip. rewrite lstrip_app.
  destruct (String.eqb_spec (lstrip n) "") as [-> | Hne]; [reflexivity|].
  by rewrite (rev_snoc (lstrip n) " ").
Qed.

(** X10. Building a label and parsing it is a round trip: for a prefix
    without "(", the label "name (prefix)" gives back the prefix, and the
    name up to surrounding blanks, also when the name has parentheses of its
    own. *)
Theorem label_round_trip (name : pyval) (p : string) :
  has_char "(" p = false ->
  prefix_in_label (display_name name (PStr p)) = p /\
  name_in_label (display_name name (PStr p)) = strip (py_str name).
Proof.
  intros Hp. split; [by apply prefix_in_label_display|].
  unfold name_in_label, display_name. simpl py_str.
  rewrite rfind_open by done.
  set (n := py_str name).
  replace (Z.of_nat (String.length n) + 1 + 1 - 1)
    with (Z.of_nat (String.length (n +:+ " "))) by (rewrite length_app; simpl; lia).
  unfold slice_to, slice.
  rewrite !clamp_in_range by (rewrite !length_app; simpl String.length; lia).
  replace (Z.to_nat (_ - 0)) with (String.length (n +:+ " ")) by lia.
  change (Z.to_nat 0) with 0%nat.
  replace (n +:+ " (" +:+ p +:+ ")") with ((n +:+ " ") +:+ ("(" +:+ p +:+ ")"))
    by exact (app_assoc_str n " " ("(" +:+ p +:+ ")")).
  rewrite substring_app_take. apply strip_snoc_space.
Qed.

End LabelFacts.

(* ===================================================================== *)
(** ** What the forms of the options flow offer *)
(* ===================================================================== *)

Section FormFacts.
Import Spec Props Options.

#[local] Arguments slice_to : simpl never.

Lemma substring_length_le (k : nat) (s : string) :
  (String.length (String.substring 0 k s) <= k)%nat.
Proof.
  revert s. induction k as [|k IH]; intros [|a s]; simpl; try lia.
  specialize (IH s). lia.
Qed.

Lemma key_prefix_length (pk : string) : (String.length (key_prefix pk) <= 12)%nat.
Proof.
  unfold key_prefix, slice_to, slice.
  set (n := Z.of_nat (String.length pk)).
  assert (0 <= n) by (subst n; lia).
  rewrite (clamp_in_range n 0) by lia. change (Z.to_nat 0) with 0%nat.
  etrans; [apply substring_length_le|]. unfold clamp. simpl. lia.
Qed.

(** One turn of the loop of [_get_repeater_contacts], when the loop runs to
    its end. *)
Lemma repeater_contacts_step c contact rest acc rc :
  repeater_contacts_loop c (ContactDict contact :: rest) acc = Ok rc ->
  (exists n pk, repeater_contact c contact n pk /\
                repeater_contacts_loop c rest (acc ++ [(key_prefix pk, n)]) = Ok rc) \/
  ((forall n pk, ~ repeater_contact c contact n pk) /\
   repeater_contacts_loop c rest acc = Ok rc).
Proof.
  simpl. unfold get_or, repeater_contact.
  destruct (contact !! "adv_name") as [n|] eqn:Hn; simpl.
  2: { intros H. right. split; [|done]. intros ? ? (? & _). done. }
  destruct (truthy n) eqn:Ht; simpl.
  2: { intros H. right. split; [|done]. intros ? ? (? & ? & _). congruence. }
  destruct (py_eq _ _ || py_eq _ _) eqn:Hty; simpl.
  2: { intros H. right. split; [|done]. intros ? ? (_ & _ & ? & _). congruence. }
  destruct (contact !! "public_key") as [[| b | z | pk]|] eqn:Hpk; simpl.
  - intros H. right. split; [|done]. intros ? ? (_ & _ & _ & ? & _). done.
  - destruct b; simpl; [done|].
    intros H. right. split; [|done]. intros ? ? (_ & _ & _ & ? & _). done.
  - destruct (z =? 0); simpl; [|done].
    intros H. right. split; [|done]. intros ? ? (_ & _ & _ & ? & _). done.
  - destruct pk as [|a pk]; simpl.
    + intros H. right. split; [|done]. intros ? ? (_ & _ & _ & ? & ?). congruence.
    + fold (key_prefix (String a pk)).
      destruct (key_prefix_nonempty a pk) as (a' & s' & Hk). rewrite Hk. simpl.
      intros H. left. exists n, (String a pk). rewrite Hk. repeat split; done.
  - intros H. right. split; [|done]. intros ? ? (_ & _ & _ & ? & _). done.
Qed.

Lemma repeater_contacts_loop_spec c contacts acc rc :
  repeater_contacts_loop c contacts acc = Ok rc ->
  forall p n,
    (p, n) ∈ rc <->
    (p, n) ∈ acc \/
    exists contact pk, ContactDict contact ∈ contacts /\
                       repeater_contact c contact n pk /\ p = key_prefix pk.
Proof.
  revert acc. induction contacts as [|[|contact] rest IH]; intros acc H p n.
  - simpl in H. injection H as <-. split; [by left|].
    intros [? | (? & ? & Hin & _)]; [done | by apply not_elem_of_nil in Hin].
  - simpl in H. rewrite (IH _ H). split.
    + intros [? | (ct & pk & Hin & ?)]; [by left|].
      right. exists ct, pk. split; [by right | done].
    + intros [? | (ct & pk & Hin & ?)]; [by left|].
      right. exists ct, pk. split; [|done].
      apply elem_of_cons in Hin as [? | ?]; done.
  - destruct (repeater_contacts_step _ _ _ _ _ H)
      as [(n0 & pk0 & Hq & Hrest) | (Hnot & Hrest)]; rewrite (IH _ Hrest).
    + rewrite elem_of_app, list_elem_of_singleton. split.
      * intros [[? | [= -> ->]] | (ct & pk & Hin & ?)].
        -- by left.
        -- right. exists contact, pk0. split; [by left | done].
        -- right. exists ct, pk. split; [by right | done].
      * intros [? | (ct & pk & Hin & Hq' & ->)]; [by left; left|].
        apply elem_of_cons in Hin as [[= <-] | Hin].
        -- left. right.
           destruct Hq as (Hn0 & _ & _ & Hpk0 & _), Hq' as (Hn & _ & _ & Hpk & _).
           congruence.
        -- right. by exists ct, pk.
    + split.
      * intros [? | (ct & pk & Hin & ?)]; [by left|].
        right. exists ct, pk. split; [by right | done].
      * intros [? | (ct & pk & Hin & Hq' & ->)]; [by left|].
        apply elem_of_cons in Hin as [[= <-] | Hin]; [by destruct (Hnot _ _ Hq')|].
        right. by exists ct, pk.
Qed.

(** X11. When [_get_repeater_contacts] returns, its pairs are exactly the
    cached contacts that are dictionaries with a name, of type repeater or
    room server, with a non-empty public-key string: each pair carries the
    name and the first 12 characters of the key, a non-empty prefix of at
    most 12 characters. Entries that are not dictionaries, unnamed contacts,
    other node types and contacts without a key are passed over. *)
Theorem repeater_contacts_are_the_cached_repeaters c hass rc :
  _get_repeater_contacts c hass = Ok rc ->
  forall p n,
    ((p, n) ∈ rc <->
     exists co contacts contact pk,
       coordinator hass = Some co /\ _contacts co = Some contacts /\
       ContactDict contact ∈ contacts /\
       repeater_contact c contact n pk /\ p = key_prefix pk) /\
    ((p, n) ∈ rc -> p <> "" /\ (String.length p <= 12)%nat).
Proof.
  unfold _get_repeater_contacts. intros H p n.
  assert ((p, n) ∈ rc <->
          exists co contacts contact pk,
            coordinator hass = Some co /\ _contacts co = Some contacts /\
            ContactDict contact ∈ contacts /\
            repeater_contact c contact n pk /\ p = key_prefix pk) as Hiff.
  { destruct (coordinator hass) as [co|]; [destruct (_contacts co) as [contacts|] eqn:Hc|].
    - rewrite (repeater_contacts_loop_spec _ _ _ _ H). split.
      + intros [Hin | (ct & pk & ?)]; [by apply not_elem_of_nil in Hin|].
        by exists co, contacts, ct, pk.
      + intros (co' & cs' & ct & pk & [= <-] & Hcs & ?). right.
        rewrite Hc in Hcs. injection Hcs as <-. by exists ct, pk.
    - injection H as <-. split; [by intros Hin%not_elem_of_nil|].
      intros (co' & cs' & _ & _ & [= <-] & Hcs & _). congruence.
    - injection H as <-. split; [by intros Hin%not_elem_of_nil|].
      intros (co' & _ & _ & _ & ? & _). done. }
  split; [exact Hiff|].
  intros Hin. apply Hiff in Hin as (_ & _ & contact & pk & _ & _ & _ & Hq & ->).
  destruct Hq as (_ & _ & _ & _ & Hne). split; [|apply key_prefix_length].
  destruct pk as [|a pk]; [done|].
  by destruct (key_prefix_nonempty a pk) as (a' & s' & ->).
Qed.

Lemma build_repeater_dict_dom (rc : list (string * pyval)) acc (label : string) :
  label ∈ dom (build_repeater_dict rc acc) <->
  label ∈ dom acc \/ exists p n, (p, n) ∈ rc /\ label = display_name n (PStr p).
Proof.
  revert acc. induction rc as [|[p n] rest IH]; intros acc; simpl.
  - split; [by left|].
    intros [? | (? & ? & Hin & _)]; [done | by apply not_elem_of_nil in Hin].
  - rewrite IH, dom_insert_L, elem_of_union, elem_of_singleton. split.
    + intros [[-> | ?] | (p' & n' & Hin & ->)].
      * right. exists p, n. split; [by left | done].
      * by left.
      * right. exists p', n'. split; [by right | done].
    + intros [? | (p' & n' & Hin & ->)]; [by left; right|].
      apply elem_of_cons in Hin as [[= -> ->] | Hin].
      * left. by left.
      * right. by exists p', n'.
Qed.

(** X12. What the add step shows. When the coordinator has no repeater
    contact the step returns the form that says so, whatever was
    submitted, and touches nothing. Otherwise, called without input, it
    returns the add form with an empty default password and the default
    interval, no error, and a choice list that holds exactly the labels
    ["<name> (<prefix>)"] of the repeater contacts; the handler is left as
    it was. *)
Theorem add_form_offers_the_contacts c hass rc h :
  _get_repeater_contacts c hass = Ok rc ->
  (rc = [] ->
   forall ui, async_step_add_repeater c hass ui h
              = (Ok (ShowForm "add_repeater" NoRepeatersSchema ∅ ∅), h)) /\
  (rc <> [] ->
   exists choices,
     async_step_add_repeater c hass None h
     = (Ok (ShowForm "add_repeater"
              (AddRepeaterSchema choices (PStr "") (DEFAULT_REPEATER_UPDATE_INTERVAL c))
              ∅ ∅), h) /\
     forall label, label ∈ choices <->
                   exists p n, (p, n) ∈ rc /\ label = display_name n (PStr p)).
Proof.
  intros Hrc. unfold async_step_add_repeater. run. rewrite Hrc. split.
  - by intros ->.
  - intros Hne. destruct rc as [|x rest]; [done|].
    eexists. split; [reflexivity|].
    intros label. rewrite build_repeater_dict_dom, dom_empty_L.
    split; [intros [Hin | ?]; [by apply not_elem_of_empty in Hin | done] | by right].
Qed.

Lemma repeater_entries_lookup subs acc (label : string) :
  repeater_entries subs acc !! label = Some label <->
  acc !! label = Some label \/ exists r, r ∈ subs /\ listed_as r label.
Proof.
  revert acc. induction subs as [|r rest IH]; intros acc; simpl.
  - split; [by left|].
    intros [? | (? & Hin & _)]; [done | by apply not_elem_of_nil in Hin].
  - destruct (truthy (get_or r "name" (PStr ""))) eqn:Hn;
      [destruct (truthy (get_or r "pubkey_prefix" (PStr ""))) eqn:Hp|]; simpl;
      rewrite IH; split.
    + intros [Hl | (r' & Hin & ?)].
      * destruct (decide (label = display_name (get_or r "name" (PStr ""))
                                     (get_or r "pubkey_prefix" (PStr "")))) as [-> | Hne].
        -- right. exists r. split; [by left | done].
        -- left. by rewrite lookup_insert_ne in Hl.
      * right. exists r'. split; [by right | done].
    + intros [Hl | (r' & Hin & Hlisted)].
      * left.
        destruct (decide (display_name (get_or r "name" (PStr ""))
                            (get_or r "pubkey_prefix" (PStr "")) = label)) as [<- | Hne].
        -- by rewrite lookup_insert_eq.
        -- by rewrite lookup_insert_ne.
      * apply elem_of_cons in Hin as [-> | Hin]; [|right; by exists r'].
        left. destruct Hlisted as (_ & _ & ->). by rewrite lookup_insert_eq.
    + intros [? | (r' & Hin & ?)]; [by left|].
      right. exists r'. split; [by right | done].
    + intros [? | (r' & Hin & Hlisted)]; [by left|].
      apply elem_of_cons in Hin as [-> | Hin]; [|right; by exists r'].
      destruct Hlisted as (_ & ? & _). congruence.
    + intros [? | (r' & Hin & ?)]; [by left|].
      right. exists r'. split; [by right | done].
    + intros [? | (r' & Hin & Hlisted)]; [by left|].
      apply elem_of_cons in Hin as [-> | Hin]; [|right; by exists r'].
      destruct Hlisted as (? & _). congruence.
Qed.

(** X13. Called without input, [async_step_init] returns the init form and
    leaves the handler as it was. The form lets the user pick a label for
    removal exactly when some subscription has a non-empty name and a
    non-empty prefix and the label is its ["<name> (<prefix>)"]; a
    subscription without a name or without a prefix cannot be picked. *)
Theorem init_form_offers_the_listed_subscriptions c hass h :
  exists form,
    async_step_init c hass None h = (Ok form, h) /\
    forall label,
      removable form label <->
      exists r, r ∈ repeater_subscriptions h /\ listed_as r label.
Proof.
  eexists. split; [reflexivity|]. intros label. unfold init_form, removable.
  destruct (repeater_subscriptions h) as [|r rest] eqn:Hsubs.
  - split; [done|]. intros (? & Hin & _). by apply not_elem_of_nil in Hin.
  - rewrite <- Hsubs. clear Hsubs.
    pose proof (repeater_entries_lookup (repeater_subscriptions h) ∅ label) as Hl.
    case_bool_decide as Hempty.
    + split; [done|]. intros Hr.
      assert (repeater_entries (repeater_subscriptions h) ∅ !! label = Some label) as Hin
        by (apply Hl; by right).
      by rewrite Hempty, lookup_empty in Hin.
    + rewrite Hl. split; [|by right].
      intros [Hin | ?]; [by rewrite lookup_empty in Hin | done].
Qed.

End FormFacts.

(* ===================================================================== *)
(** ** The steps of the options flow, whatever they are given *)
(* ===================================================================== *)

Section OptionsStepFacts.
Import Spec Props Options.

#[local] Arguments prefix_in_label : simpl never.
#[local] Arguments name_in_label : simpl never.
#[local] Arguments build_repeater_dict : simpl never.
#[local] Arguments _show_add_repeater_form : simpl never.
#[local] Arguments init_form : simpl never.
#[local] Arguments new_subscription : simpl never.
#[local] Arguments py_in : simpl never.
#[local] Arguments slice_to : simpl never.
#[local] Arguments version_of : simpl never.

Lemma show_add_form_step c d errors ui :
  shown_step (Ok (_show_add_repeater_form c d errors ui)) = Some "add_repeater".
Proof.
  unfold _show_add_repeater_form.
  destruct ui as [ui|]; [destruct (bool_decide (ui = ∅))|]; reflexivity.
Qed.

Ltac split_match :=
  match goal with
  | |- context [match ?x with _ => _ end] => destruct x eqn:?
  end.

Lemma init_form_step subs : shown_step (Ok (init_form subs)) = Some "init".
Proof. reflexivity. Qed.

#[local] Arguments shown_step : simpl never.

(** What the form a run ends with says about how far it went. *)
Ltac by_form :=
  let Hs := fresh "Hs" in
  split; intros Hs;
  rewrite ?show_add_form_step, ?init_form_step in Hs;
  unfold shown_step in Hs; simpl in Hs;
  first [ done | lia | split; [lia | reflexivity] ].

(** A run that stops after [n] of the calls, the list untouched. *)
Ltac stops_after n :=
  exists n; eexists _, _, _, _;
  split; [simpl; rewrite <- ?app_assoc; try rewrite app_nil_r; reflexivity|];
  split; [left; split; [lia | reflexivity] | by_form].

(** X14. The calls of the add step come in one fixed order, whatever the
    step is given: the contact lookup, the login command, the wait for the
    login, the version query, the wait for the version message, the update
    of the config entry. A run makes the first [n] of them. The
    subscription list is touched only by a run that made all six: then one
    record has been appended and the update carries the new list, and
    otherwise the list is as it was. The add form is returned only by a
    run that stopped before the version query, and the init form only by
    a run that made all six calls, for the new list. *)
Theorem add_step_call_order c hass ui h :
  let res := (async_step_add_repeater c hass ui h).1 in
  let h' := (async_step_add_repeater c hass ui h).2 in
  exists (n : nat) p contact password filter,
    sent h' = (sent h ++ take n (add_calls p contact password filter
                                    (repeater_subscriptions h')))%list /\
    (((n < 6)%nat /\ repeater_subscriptions h' = repeater_subscriptions h) \/
     (n = 6%nat /\
      exists record,
        repeater_subscriptions h' = (repeater_subscriptions h ++ [record])%list)) /\
    (shown_step res = Some "add_repeater" -> (n < 4)%nat) /\
    (shown_step res = Some "init" ->
     n = 6%nat /\ res = Ok (init_form (repeater_subscriptions h'))).
Proof.
  intros res h'. subst res h'.
  unfold async_step_add_repeater, add_calls. destruct hass as [ha|]; run.
  - repeat (split_match; simpl;
            try solve [stops_after 0%nat | stops_after 1%nat | stops_after 2%nat
                      | stops_after 3%nat | stops_after 4%nat]).
    exists 6%nat; eexists _, _, _, _.
    split; [simpl; rewrite <- ?app_assoc; reflexivity|].
    split; [right; split; [done | by eexists] | by_form].
  - stops_after 0%nat.
  Unshelve. all: first [exact ∅ | exact PNone | exact ""].
Qed.

(** X15. [async_step_init] either leaves the handler exactly as it was,
    or it has replaced the subscription list by a sublist [kept] of it. On
    a flow attached to Home Assistant it has then pushed that very list to
    the config entry, as its only call, and returned the init form of
    [kept]. On a flow whose [hass] is still [None] the list is replaced
    all the same, and then the step raises the [AttributeError] of
    [self.hass.config_entries] without having made any call: the list of
    the handler and the config entry are out of step. *)
Theorem init_step_outcomes c hass ui h :
  let res := (async_step_init c hass ui h).1 in
  let h' := (async_step_init c hass ui h).2 in
  h' = h \/
  exists kept,
    repeater_subscriptions h' = kept /\
    kept `sublist_of` repeater_subscriptions h /\
    match hass with
    | Some _ =>
        res = Ok (init_form kept) /\ sent h' = (sent h ++ [AsyncUpdateEntry kept])%list
    | None =>
        res = Raise (no_attribute PNone "config_entries") /\ sent h' = sent h
    end.
Proof.
  intros res h'. subst res h'. unfold async_step_init.
  destruct ui as [ui|]; [|by left].
  destruct (py_eq _ _); [left; apply add_without_input|].
  destruct (_ && _); [|by left].
  destruct (get ui "repeater_to_remove") as [| b | z | label]; try by left.
  run. destruct (without_repeater _ _) as [kept| |] eqn:E; simpl; try by left.
  right. exists kept. apply without_repeater_filter in E as ->.
  destruct hass as [ha|]; (split; [done|]); (split; [apply sublist_filter | done]).
Qed.

Lemma without_repeater_again p subs kept :
  without_repeater p subs = Ok kept -> without_repeater p kept = Ok kept.
Proof.
  revert kept. induction subs as [|r rest IH]; intros kept H; simpl in H.
  - by simplify_eq.
  - destruct (without_repeater p rest) as [k| |] eqn:Hrest.
    + specialize (IH k eq_refl).
      destruct (truthy (get r "pubkey_prefix")) eqn:Ht.
      * destruct (get r "pubkey_prefix") as [| b | z | q] eqn:Hg; try done.
        simplify_eq. destruct (startswith q p) eqn:Hs; [done|].
        cbn [without_repeater]. by rewrite Hg, Ht, Hs, IH.
      * simplify_eq. cbn [without_repeater]. by rewrite Ht, IH.
    + destruct (truthy (get r "pubkey_prefix")); [destruct (get r "pubkey_prefix")|];
        done.
    + destruct (truthy (get r "pubkey_prefix")); [destruct (get r "pubkey_prefix")|];
        done.
Qed.

(** X16. Submitting the same input to [async_step_init] a second time
    changes nothing more: the second run ends as the first did, with the
    same form or the same exception, and leaves the same subscription
    list. In particular removing a repeater twice removes nothing the
    second time. *)
Theorem init_step_is_idempotent c hass ui h :
  let first := async_step_init c hass ui h in
  let second := async_step_init c hass ui first.2 in
  second.1 = first.1 /\
  repeater_subscriptions second.2 = repeater_subscriptions first.2.
Proof.
  intros first second. subst first second. unfold async_step_init.
  destruct ui as [ui|]; [|done].
  destruct (py_eq _ _); [by rewrite !add_without_input|].
  destruct (_ && _); [|done].
  destruct (get ui "repeater_to_remove") as [| b | z | label]; try done.
  destruct hass as [ha|]; run;
    (destruct (without_repeater (prefix_in_label label) (repeater_subscriptions h))
       as [kept| |] eqn:E; simpl; try by rewrite E);
    by rewrite (without_repeater_again _ _ _ E).
Qed.

(** X17. Adding a repeater and then removing it gives the subscription
    list back. When the add step is submitted a label whose prefix is not
    empty and is not the beginning of any prefix already in the list, and
    the login succeeds, the list grows by one record; when the init step is
    then given a removal selection that parses to the same prefix, it
    returns the init form of the original list, the handler holds the
    original list again, and the last call pushes that list to the config
    entry. *)
Theorem add_then_remove_restores c hass co ui label contact pk ev ui' label' h :
  selects c hass ui label ->
  coordinator hass = Some co ->
  get_contact_by_key_prefix (mesh_core co) (prefix_in_label label) = Some contact ->
  contact !! "public_key" = Some (PStr pk) ->
  type (send_login (mesh_core co) contact (get ui (CONF_REPEATER_PASSWORD c))) <> ERROR ->
  login_reply (mesh_core co) = Some ev ->
  type ev <> ERROR ->
  prefix_in_label label <> "" ->
  well_typed (repeater_subscriptions h) ->
  (forall r, r ∈ repeater_subscriptions h -> ~ prefix_extends (prefix_in_label label) r) ->
  ui' !! "action" = Some (PStr "remove_repeater") ->
  ui' !! "repeater_to_remove" = Some (PStr label') ->
  prefix_in_label label' = prefix_in_label label ->
  exists form h1 h2,
    async_step_add_repeater c hass (Some ui) h = (Ok form, h1) /\
    length (repeater_subscriptions h1) = S (length (repeater_subscriptions h)) /\
    async_step_init c hass (Some ui') h1
    = (Ok (init_form (repeater_subscriptions h)), h2) /\
    repeater_subscriptions h2 = repeater_subscriptions h /\
    last (sent h2) = Some (AsyncUpdateEntry (repeater_subscriptions h)).
Proof.
  intros Hsel Hco Hcontact Hpk Hsent Hlogin Hev Hne Htyped Hfree Haction Hlabel' Hsame.
  destruct hass as [ha|]; [|done].
  assert (~ subscribed (prefix_in_label label) (repeater_subscriptions h)) as Hnew.
  { intros (r & Hin & Hp). apply (Hfree r Hin). by apply has_prefix_extends. }
  assert (label' <> "") as Hne'.
  { intros ->. apply Hne. by rewrite <- Hsame. }
  rewrite (add_after_login c (Some ha) co ui label contact pk ev h) by done.
  set (record := new_subscription _ _ _ _ _).
  assert (has_prefix (prefix_in_label label) record) as Hrecord
    by apply new_subscription_fields.
  eexists _, _, _. split; [reflexivity|]. simpl.
  split; [rewrite List.length_app; simpl; lia|].
  rewrite (remove_run c (Some ha) ui' label' _ Haction Hlabel' Hne'). simpl.
  rewrite Hsame.
  destruct (without_repeater_total (prefix_in_label label)
              (repeater_subscriptions h ++ [record])) as (kept & Hkept).
  { apply Forall_app. split; [done|].
    apply Forall_singleton. unfold has_prefix in Hrecord. by rewrite Hrecord. }
  rewrite Hkept. apply without_repeater_filter in Hkept.
  rewrite filter_app, filter_all, filter_cons_False, filter_nil, app_nil_r in Hkept.
  - subst kept. split; [reflexivity|]. split; [done|]. simpl. by rewrite last_snoc.
  - intros Hn. apply Hn. by apply has_prefix_extends.
  - done.
Qed.

(** X18. A removal selection with nothing between its last parentheses
    matches every prefix. When the label parses to the empty prefix and the
    prefixes of the list are strings or [None], the remove step drops every
    subscription that has a non-empty prefix and keeps, in their order,
    exactly the others; that is the list it leaves whether or not the flow
    is attached to Home Assistant, and on an attached flow the step
    returns a form. *)
Theorem empty_selection_removes_every_prefix c hass ui label h :
  ui !! "action" = Some (PStr "remove_repeater") ->
  ui !! "repeater_to_remove" = Some (PStr label) ->
  label <> "" ->
  prefix_in_label label = "" ->
  well_typed (repeater_subscriptions h) ->
  let after := (async_step_init c hass (Some ui) h).2 in
  repeater_subscriptions after `sublist_of` repeater_subscriptions h /\
  (forall r, r ∈ repeater_subscriptions after <->
             r ∈ repeater_subscriptions h /\
             ~ exists q, r !! "pubkey_prefix" = Some (PStr q) /\ q <> "") /\
  (is_Some hass ->
   exists form, async_step_init c hass (Some ui) h = (Ok form, after)).
Proof.
  intros Haction Hlabel Hne Hempty Htyped after. subst after.
  rewrite (remove_run c hass ui label h Haction Hlabel Hne), Hempty.
  destruct (without_repeater_total "" _ Htyped) as (kept & Hkept).
  rewrite Hkept. apply without_repeater_filter in Hkept as ->.
  replace (repeater_subscriptions _.2)
    with (filter (fun r => ~ prefix_extends "" r) (repeater_subscriptions h))
    by (by destruct hass).
  split; [apply sublist_filter|]. split.
  - intros r. rewrite list_elem_of_filter. split.
    + intros [Hn Hin]. split; [done|]. intros (q & Hq & Hq'). apply Hn.
      exists q. split; [done|]. split; [done|]. by destruct q.
    + intros [Hin Hn]. split; [|done]. intros (q & Hq & Hq' & _). apply Hn.
      by exists q.
  - intros [ha ->]. by eexists.
Qed.

Lemma substring_length (k : nat) (s : string) :
  (k <= String.length s)%nat -> String.length (String.substring 0 k s) = k.
Proof.
  revert s. induction k as [|k IH]; intros [|a s]; simpl; try lia.
  intros Hk. rewrite IH; lia.
Qed.

Lemma key_prefix_full_length (pk : string) :
  (12 <= String.length pk)%nat -> String.length (key_prefix pk) = 12%nat.
Proof.
  intros Hpk. unfold key_prefix, slice_to, slice.
  set (n := Z.of_nat (String.length pk)).
  assert (12 <= n) by (subst n; lia).
  rewrite (clamp_in_range n 0), (clamp_in_range n 12) by lia.
  change (Z.to_nat 0) with 0%nat. change (Z.to_nat (12 - 0)) with 12%nat.
  by apply substring_length.
Qed.

(** The prefix of the record the add step appends is what the submitted
    label carries between its last parentheses. *)
Lemma add_subscriptions_of_label c hass ui label h :
  ui !! CONF_REPEATER_NAME c = Some (PStr label) ->
  let h' := (async_step_add_repeater c hass (Some ui) h).2 in
  repeater_subscriptions h' = repeater_subscriptions h \/
  exists n ver pw iv,
    repeater_subscriptions h'
    = (repeater_subscriptions h ++ [new_subscription n (prefix_in_label label) ver pw iv])%list.
Proof.
  intros Hlabel. unfold async_step_add_repeater. destruct hass as [ha|]; run.
  - destruct (_get_repeater_contacts c (Some ha)) as [[|x rc]| |]; simpl;
      try (left; reflexivity).
    rewrite (get_lookup _ _ _ Hlabel). simpl.
    repeat (split_match; simpl; try (left; reflexivity)).
    right. eauto 10.
  - by left.
Qed.

(** The add step keeps the prefixes key prefixes: given the label of a
    contact of its form whose key has twelve characters or more, none of
    the first twelve an opening parenthesis, what it stores is
    [public_key[:12]], twelve characters long. *)
Lemma add_keeps_key_prefixes c hass ui name pk h :
  ui !! CONF_REPEATER_NAME c = Some (PStr (display_name name (PStr (key_prefix pk)))) ->
  (12 <= String.length pk)%nat ->
  has_char "(" (key_prefix pk) = false ->
  key_prefixes (repeater_subscriptions h) ->
  key_prefixes (repeater_subscriptions (async_step_add_repeater c hass (Some ui) h).2).
Proof.
  intros Hlabel Hpk Hparen Hkeys.
  destruct (add_subscriptions_of_label c hass ui _ h Hlabel)
    as [-> | (n & ver & pw & iv & ->)]; [done|].
  rewrite prefix_in_label_display by done.
  intros r q Hin Hq Hne. apply elem_of_app in Hin as [Hin | Hin].
  - by apply (Hkeys r q).
  - apply list_elem_of_singleton in Hin as ->.
    destruct (new_subscription_fields n (key_prefix pk) ver pw iv) as (_ & _ & Hp & _).
    rewrite Hp in Hq. injection Hq as <-. by apply key_prefix_full_length.
Qed.

End OptionsStepFacts.

(* ===================================================================== *)
(** ** The theorems about the rest of the module, at work *)
(* ===================================================================== *)

Section MoreRuns.
Import Spec Props Options Validate ConfigFlow Samples FlowSamples.

Lemma validate_common_raises_cannot_connect_witness :
  (validate_common consts (node (Resolves 0 send_error)) new_api).1
  = Raise (CannotConnect "Failed to connect: Failed to get node info") /\
  (CannotConnect "Failed to connect: Failed to get node info"
   = CannotConnect "Connection timed out" \/
   exists text, CannotConnect "Failed to connect: Failed to get node info"
                = CannotConnect ("Failed to connect: " +:+ text)).
Proof.
  split; [reflexivity|].
  exact (validate_common_raises_cannot_connect consts (node (Resolves 0 send_error))
           new_api _ eq_refl).
Defined.

Lemma validation_success_disconnects_witness :
  exists info api',
    validate_common consts good_node new_api = (Ok info, api') /\
    calls api' = [ApiConnect 10000; SendAppstart; ApiDisconnect].
Proof.
  eexists _, _. split; [reflexivity|].
  destruct (validation_success_disconnects consts good_node new_api _ _ eq_refl)
    as (_ & _ & _ & Hcalls).
  exact Hcalls.
Defined.

Lemma validation_info_witness :
  exists info api',
    validate_common consts good_node new_api = (Ok info, api') /\
    info !! "name" = Some (PStr "Base") /\
    info !! "title" = Some (PStr "MeshCore Node Base") /\
    info !! "pubkey" = Some (PStr "a1b2").
Proof.
  eexists _, _. split; [reflexivity|].
  destruct (validation_info consts good_node new_api _ _ eq_refl)
    as (t & ev & pk & Hreply & Hname & Htitle & Hpubkey & Hpk).
  injection Hreply as <- <-. injection Hpk as <-.
  repeat split; assumption.
Defined.

Lemma connect_failure_skips_appstart_witness :
  connects_in_time consts refusing_node (PBool false) /\
  exists api',
    validate_common consts refusing_node new_api
    = (Raise (CannotConnect "Failed to connect: Device connection failed"), api') /\
    calls api' = [ApiConnect 10000].
Proof.
  assert (connects_in_time consts refusing_node (PBool false)) as Hconnect
    by (exists 0%N; split; reflexivity).
  split; [exact Hconnect|].
  exact (connect_failure_skips_appstart consts refusing_node new_api (PBool false)
           Hconnect (or_introl eq_refl)).
Defined.

Lemma entry_needs_validation_witness :
  exists title data flow',
    async_step_usb consts flow_consts world (Some usb_input) new_flow
    = (Ok (ConfigEntry title data), flow') /\
    (exists params, validated flow' = [(params, validated_api consts)]) /\
    scans flow' = 0%nat /\
    data !! "repeater_subscriptions" = Some (Subscriptions []).
Proof.
  eexists _, _, _. split; [reflexivity|].
  exact (entry_needs_validation consts flow_consts world (Some usb_input) new_flow
           _ _ _ (or_introl eq_refl)).
Defined.

Lemma label_round_trip_witness :
  has_char "(" "123456789abc" = false /\
  prefix_in_label hilltop_label = "123456789abc" /\
  name_in_label hilltop_label = "Hilltop".
Proof.
  split; [reflexivity|].
  exact (label_round_trip (PStr "Hilltop") "123456789abc" eq_refl).
Defined.

Lemma repeater_contacts_are_the_cached_repeaters_witness :
  _get_repeater_contacts consts (hass_with mesh_ok)
  = Ok [("123456789abc", PStr "Hilltop")] /\
  (exists co contacts contact pk,
     coordinator (hass_with mesh_ok) = Some co /\ _contacts co = Some contacts /\
     ContactDict contact ∈ contacts /\
     repeater_contact consts contact (PStr "Hilltop") pk /\
     "123456789abc" = key_prefix pk) /\
  "123456789abc" <> "" /\ (String.length "123456789abc" <= 12)%nat.
Proof.
  split; [reflexivity|].
  destruct (repeater_contacts_are_the_cached_repeaters consts (hass_with mesh_ok)
              [("123456789abc", PStr "Hilltop")] eq_refl "123456789abc" (PStr "Hilltop"))
    as [Hiff Hbound].
  split.
  - apply Hiff, list_elem_of_here.
  - apply Hbound, list_elem_of_here.
Defined.

Lemma add_form_offers_the_contacts_witness :
  _get_repeater_contacts consts (hass_with mesh_ok)
  = Ok [("123456789abc", PStr "Hilltop")] /\
  exists choices,
    async_step_add_repeater consts (hass_with mesh_ok) None (new_handler [])
    = (Ok (ShowForm "add_repeater" (AddRepeaterSchema choices (PStr "") (PInt 900)) ∅ ∅),
       new_handler []) /\
    forall label, label ∈ choices <->
                  exists p n, (p, n) ∈ [("123456789abc", PStr "Hilltop")] /\
                              label = display_name n (PStr p).
Proof.
  split; [reflexivity|].
  apply (add_form_offers_the_contacts consts (hass_with mesh_ok)
           [("123456789abc", PStr "Hilltop")] (new_handler []) eq_refl).
  discriminate.
Defined.

Lemma valley_is_no_hilltop (r : pydict) :
  r ∈ [subscription "Valley" "abcdef012345"] ->
  ~ prefix_extends (prefix_in_label hilltop_label) r.
Proof.
  intros Hin (q & Hq & _ & Hs). apply list_elem_of_singleton in Hin. subst r.
  vm_compute in Hq. injection Hq as <-. vm_compute in Hs. discriminate.
Defined.

Lemma add_then_remove_restores_witness :
  exists form h1 h2,
    async_step_add_repeater consts (hass_with mesh_ok)
      (Some (submit hilltop_label "secret"))
      (new_handler [subscription "Valley" "abcdef012345"]) = (Ok form, h1) /\
    length (repeater_subscriptions h1) = 2%nat /\
    async_step_init consts (hass_with mesh_ok) (Some (remove_input hilltop_label)) h1
    = (Ok (init_form [subscription "Valley" "abcdef012345"]), h2) /\
    repeater_subscriptions h2 = [subscription "Valley" "abcdef012345"] /\
    last (sent h2) = Some (AsyncUpdateEntry [subscription "Valley" "abcdef012345"]).
Proof.
  refine (add_then_remove_restores consts (hass_with mesh_ok) (coordinator_with mesh_ok)
            (submit hilltop_label "secret") hilltop_label hilltop
            (hex_encode hilltop_key) login_ok (remove_input hilltop_label) hilltop_label
            (new_handler [subscription "Valley" "abcdef012345"])
            (hilltop_selected _) eq_refl eq_refl hilltop_has_key _ eq_refl _ _ _
            valley_is_no_hilltop eq_refl eq_refl eq_refl).
  - discriminate.
  - discriminate.
  - discriminate.
  - apply Forall_singleton. exact I.
Defined.

Lemma empty_selection_removes_every_prefix_witness :
  prefix_in_label "Hilltop ()" = "" /\
  exists form h',
    async_step_init consts (hass_with mesh_ok) (Some (remove_input "Hilltop ()"))
      (new_handler [subscription "Hilltop" "123456789abc"; ∅]) = (Ok form, h') /\
    repeater_subscriptions h' `sublist_of` [subscription "Hilltop" "123456789abc"; ∅] /\
    forall r, r ∈ repeater_subscriptions h' <->
              r ∈ [subscription "Hilltop" "123456789abc"; ∅] /\
              ~ exists q, r !! "pubkey_prefix" = Some (PStr q) /\ q <> "".
Proof.
  split; [reflexivity|].
  destruct (empty_selection_removes_every_prefix consts (hass_with mesh_ok)
              (remove_input "Hilltop ()") "Hilltop ()"
              (new_handler [subscription "Hilltop" "123456789abc"; ∅])
              eq_refl eq_refl) as (Hsub & Hiff & Hrun).
  - discriminate.
  - reflexivity.
  - repeat (apply Forall_cons; split; [exact I|]). apply Forall_nil_2.
  - destruct (Hrun (ex_intro _ _ eq_refl)) as (form & Hform).
    eexists form, _. split; [exact Hform|]. split; [exact Hsub | exact Hiff].
Defined.

Lemma missing_key_is_unknown_witness :
  async_step_tcp consts flow_consts world (Some {[ "tcp_host" := PStr "10.0.0.7" ]})
    new_flow
  = (Ok (ConfigForm "tcp" (TcpSchema (PInt 5000)) {[ "base" := "unknown" ]}), new_flow).
Proof.
  destruct (missing_key_is_unknown consts flow_consts world
              {[ "tcp_host" := PStr "10.0.0.7" ]} new_flow) as (_ & Htcp & _).
  apply Htcp. right. reflexivity.
Defined.

Lemma connection_step_follows_validation_witness :
  (exists data,
     (async_step_usb consts flow_consts world (Some usb_input) new_flow).1
     = Ok (ConfigEntry (PStr "MeshCore Node Base") data)) /\
  form_error (async_step_tcp consts flow_consts world (Some tcp_input) new_flow).1
    "tcp" "cannot_connect".
Proof.
  destruct (connection_step_follows_validation consts flow_consts world usb_input new_flow)
    as (Husb & _).
  destruct (connection_step_follows_validation consts flow_consts world tcp_input new_flow)
    as (_ & Htcp & _).
  split.
  - exact (Husb (PStr "/dev/ttyUSB0") (PInt 115200) eq_refl eq_refl).
  - exact (Htcp (PStr "10.0.0.7") (PInt 5000) eq_refl eq_refl).
Defined.

Lemma user_step_only_dispatches_witness :
  (async_step_user consts flow_consts world
     (Some {[ "connection_type" := PStr "lora" ]}) new_flow).1
  = Ok (ConfigForm "user" UserSchema ∅).
Proof.
  destruct (user_step_only_dispatches consts flow_consts world
              (Some {[ "connection_type" := PStr "lora" ]}) new_flow)
    as (_ & _ & _ & Hother).
  exact (Hother _ (PStr "lora") eq_refl eq_refl eq_refl eq_refl eq_refl).
Defined.

Lemma ble_form_offers_meshcore_devices_witness :
  exists schema,
    (async_step_ble consts flow_consts world None new_flow).1
    = Ok (ConfigForm "ble" schema ∅) /\
    offers schema "AA:BB" "MeshCore-1234 (AA:BB)" /\
    (forall label, ~ offers schema "CC:DD" label).
Proof.
  destruct (ble_form_offers_meshcore_devices consts flow_consts world new_flow)
    as (_ & Hfound).
  destruct (Hfound found_devices eq_refl) as (schema & Hrun & Honly & Hall & _).
  exists schema. split; [exact Hrun|]. split.
  - destruct (Hall {| name := Some "MeshCore-1234"; address := "AA:BB" |})
      as (label & Hlabel).
    + apply list_elem_of_here.
    + exists "MeshCore-1234". split; reflexivity.
    + destruct (Honly _ _ Hlabel) as (dev & n & Hdev & Haddr & Hname & _ & ->).
      apply list_elem_of_In in Hdev. simpl in Hdev.
      destruct Hdev as [<- | [<- | [<- | []]]]; try discriminate.
      injection Hname as <-. exact Hlabel.
  - intros label Hlabel.
    destruct (Honly _ _ Hlabel) as (dev & n & Hdev & Haddr & Hname & Hmesh & _).
    apply list_elem_of_In in Hdev. simpl in Hdev.
    destruct Hdev as [<- | [<- | [<- | []]]]; try discriminate.
    injection Hname as <-. vm_compute in Hmesh. discriminate.
Defined.

End MoreRuns.
